(** * Bounded polling for a repository status

    A shallow embedding of [IntegrationUtils.wait_for_repo_status_paused]
    (integration_utils.py) and the properties its specification states.

    Conventions of the embedding.
    - The API response is whatever [json.loads] can produce, so it is a
      dynamically typed value ([Py.pyval]); the attribute, subscript and
      iteration failures Python raises on an ill-typed response are kept.
    - Time is what [time.time()] returns: seconds as a binary64 float
      ([spec_float], computed with the Standard Library's IEEE 754
      operations at precision 53). The deadline test is the source's: the
      rounded float product [(time.time() - start_time) * 1000], compared
      exactly with the integer [timeout_ms].
    - The world is the history of what the call has done: readings of the
      clock, fetches and sleeps. The collaborators are functions of it: the
      wall clock (what [time.time()] returns), the API client and the event
      loop. Nothing makes the readings of the clock increase: it is the wall
      clock, which can be set back.
    - [int / int] is Python's true division: the quotient of the exact
      integers, rounded once, or [OverflowError] when it is too large for a
      float. Both [timeout_ms/1000] (line 98) and [interval_ms / 1000]
      (line 121) are kept.
    - A sleep can end in [CancelledError]; a cancelled fetch is one of the
      exceptions the API client can answer with.
    - Logger calls are not recorded, but their f-string arguments are
      evaluated where that can raise (lines 98 and 115).
    - The [while] loop is run with fuel; [None] means the fuel ran out. *)

From Stdlib Require Import ZArith String DecimalString SpecFloat Lia.
From stdpp Require Import gmap strings list.

Set Warnings "-register-all".

Open Scope Z_scope.

(** ** Python values, exceptions and the operations the method uses *)

Module Py.

(** The values a decoded JSON document is made of. *)
Inductive pyval : Type :=
| PNone
| PBool (b : bool)
| PInt (n : Z)
| PFloat (f : spec_float)
| PStr (s : string)
| PList (l : list pyval)
| PDict (d : gmap string pyval).

(** The exceptions that can leave the method. [ApiError] stands for
    whatever class the API client raises. *)
Inductive exn : Type :=
| ValueError (msg : string)
| TimeoutError (msg : string)
| KeyError (key : string)
| AttributeError (msg : string)
| TypeError (msg : string)
| OverflowError (msg : string)
| ZeroDivisionError (msg : string)
| CancelledError
| ApiError (cls msg : string).

Inductive result (A : Type) : Type :=
| Ok (a : A)
| Err (e : exn).

Arguments Ok {A} a.
Arguments Err {A} e.

(** An exception ends the computation; [x ← r; k] is stdpp's notation for
    the bind. *)
#[global] Instance result_ret : MRet result := @Ok.
#[global] Instance result_bind : MBind result :=
  fun A B k r =>
    match r with
    | Ok a => k a
    | Err e => Err e
    end.

Definition type_name (v : pyval) : string :=
  match v with
  | PNone => "NoneType"
  | PBool _ => "bool"
  | PInt _ => "int"
  | PFloat _ => "float"
  | PStr _ => "str"
  | PList _ => "list"
  | PDict _ => "dict"
  end.

(** [bool(v)], as [not v] uses it. *)
Definition truthy (v : pyval) : bool :=
  match v with
  | PNone => false
  | PBool b => b
  | PInt n => negb (n =? 0)
  | PFloat (S754_zero _) => false
  | PFloat _ => true
  | PStr s => negb (String.eqb s "")
  | PList l => match l with [] => false | _ => true end
  | PDict d => negb (bool_decide (d = ∅))
  end.

(** [isinstance(v, list)]. *)
Definition is_list (v : pyval) : bool :=
  match v with
  | PList _ => true
  | _ => false
  end.

(** [v.get(key, dflt)]: only a dict has the attribute. *)
Definition get (v : pyval) (key : string) (dflt : pyval) : result pyval :=
  match v with
  | PDict d => Ok (default dflt (d !! key))
  | _ => Err (AttributeError ("'" +:+ type_name v +:+ "' object has no attribute 'get'"))
  end.

(** [v[key]] for a string key. *)
Definition getitem (v : pyval) (key : string) : result pyval :=
  match v with
  | PDict d =>
      match d !! key with
      | Some x => Ok x
      | None => Err (KeyError key)
      end
  | PList _ => Err (TypeError "list indices must be integers or slices, not str")
  | PStr _ => Err (TypeError "string indices must be integers, not 'str'")
  | _ => Err (TypeError ("'" +:+ type_name v +:+ "' object is not subscriptable"))
  end.

(** [iter(v)], run to the end: a list gives its elements, a string its
    characters (as one-character strings) and a dict its keys; the other
    values are not iterable. *)
Definition iter (v : pyval) : result (list pyval) :=
  match v with
  | PList l => Ok l
  | PStr s => Ok (map (fun c => PStr (String c EmptyString)) (list_ascii_of_string s))
  | PDict d => Ok (map (fun kv => PStr (fst kv)) (map_to_list d))
  | _ => Err (TypeError ("'" +:+ type_name v +:+ "' object is not iterable"))
  end.

(** A float compared with an int: Python compares the exact values. *)
Definition float_eq_int (f : spec_float) (n : Z) : bool :=
  match f with
  | S754_zero _ => n =? 0
  | S754_finite s m e =>
      let v := if s then Z.neg m else Z.pos m in
      if 0 <=? e then v * 2 ^ e =? n else v =? n * 2 ^ (- e)
  | _ => false
  end.

(** [v == n] for an int [n]: [True == 1] and [456.0 == 456] hold. *)
Definition eq_int (v : pyval) (n : Z) : bool :=
  match v with
  | PInt k => k =? n
  | PBool b => (if b then 1 else 0) =? n
  | PFloat f => float_eq_int f n
  | _ => false
  end.

(** [v == s] for a str [s]. *)
Definition eq_str (v : pyval) (s : string) : bool :=
  match v with
  | PStr t => String.eqb t s
  | _ => false
  end.

(** [next((x for x in l if test(x)), None)]: the generator is consumed up to
    its first hit, so the elements after it are never tested. *)
Fixpoint next_or_none (test : pyval -> result bool) (l : list pyval) : result pyval :=
  match l with
  | [] => Ok PNone
  | x :: rest =>
      match test x with
      | Err e => Err e
      | Ok true => Ok x
      | Ok false => next_or_none test rest
      end
  end.

(** [str(n)] for an int. *)
Definition str_of_int (n : Z) : string := NilZero.string_of_int (Z.to_int n).

(** *** Floats *)

(** A Python float is a binary64 number: [sys.float_info.mant_dig] bits of
    mantissa, exponents below [sys.float_info.max_exp]. *)
Definition mant_dig : Z := 53.
Definition max_exp : Z := 1024.

(** [a - b] and [a * b] on floats, rounded to nearest, ties to even. *)
Definition float_sub (a b : spec_float) : spec_float := SFsub mant_dig max_exp a b.
Definition float_mul (a b : spec_float) : spec_float := SFmul mant_dig max_exp a b.

(** [float(n)], as a float operand turns an int operand into a float. *)
Definition float_of_int (n : Z) : spec_float := binary_normalize mant_dig max_exp n 0 false.

(** An integer as it is, before any rounding. *)
Definition exact (n : Z) : spec_float :=
  match n with
  | Z0 => S754_zero false
  | Zpos p => S754_finite false p 0
  | Zneg p => S754_finite true p 0
  end.

(** The quotient of two integers rounded once to a float; an infinity when
    it is too large for one. *)
Definition quotient (a b : Z) : spec_float := SFdiv mant_dig max_exp (exact a) (exact b).

Definition is_infinite (f : spec_float) : bool :=
  match f with
  | S754_infinity _ => true
  | _ => false
  end.

(** Neither an infinity nor a NaN. *)
Definition is_finite (f : spec_float) : bool :=
  match f with
  | S754_zero _ | S754_finite _ _ _ => true
  | _ => false
  end.

(** [a / b] on ints. *)
Definition truediv (a b : Z) : result spec_float :=
  if b =? 0 then Err (ZeroDivisionError "division by zero")
  else if is_infinite (quotient a b)
       then Err (OverflowError "integer division result too large for a float")
       else Ok (quotient a b).

(** [f < n] for a float and an int: Python compares the exact values; a
    NaN is below nothing. *)
Definition float_lt_int (f : spec_float) (n : Z) : bool :=
  match f with
  | S754_nan => false
  | S754_infinity s => s
  | S754_zero _ => 0 <? n
  | S754_finite s m e =>
      let v := if s then Z.neg m else Z.pos m in
      if 0 <=? e then v * 2 ^ e <? n else v <? n * 2 ^ (- e)
  end.

(** [f <= n] and [n <= f], exact too. *)
Definition float_le_int (f : spec_float) (n : Z) : bool :=
  match f with
  | S754_nan => false
  | S754_infinity s => s
  | S754_zero _ => 0 <=? n
  | S754_finite s m e =>
      let v := if s then Z.neg m else Z.pos m in
      if 0 <=? e then v * 2 ^ e <=? n else v <=? n * 2 ^ (- e)
  end.

Definition int_le_float (n : Z) (f : spec_float) : bool :=
  match f with
  | S754_nan => false
  | S754_infinity s => negb s
  | S754_zero _ => n <=? 0
  | S754_finite s m e =>
      let v := if s then Z.neg m else Z.pos m in
      if 0 <=? e then n <=? v * 2 ^ e else n * 2 ^ (- e) <=? v
  end.

End Py.

Import Py.

(** ** The world the coroutine runs in *)

(** What the method does to the outside, newest first: it reads the clock,
    fetches, and sleeps. A sleep is recorded with the delay it asks for, in
    seconds. The world is what has happened so far. *)
Inductive event : Type :=
| Read
| Fetch (workspace_id integration_id : Z)
| Sleep (delay : spec_float).

Record World : Type := mkWorld {
  history : list event
}.

Definition is_read (e : event) : bool :=
  match e with
  | Read => true
  | _ => false
  end.

Definition is_fetch (e : event) : bool :=
  match e with
  | Fetch _ _ => true
  | _ => false
  end.

Definition is_sleep (e : event) : bool :=
  match e with
  | Sleep _ => true
  | _ => false
  end.

Definition reads (w : World) : nat := length (List.filter is_read (history w)).
Definition fetches (w : World) : nat := length (List.filter is_fetch (history w)).
Definition sleeps (w : World) : nat := length (List.filter is_sleep (history w)).

(** The wall clock: what [time.time()] returns when called in world [w]. *)
Record Clock : Type := mkClock {
  time : World -> spec_float
}.

(** The API client: what a call made in world [w] answers. It may answer
    with any exception. *)
Record BitoAPI : Type := mkBitoAPI {
  get_all_agent_configuration : Z -> Z -> World -> result pyval
}.

(** The event loop: whether a sleep of [delay] seconds begun in world [w] is
    cancelled. *)
Record EventLoop : Type := mkEventLoop {
  cancels : spec_float -> World -> bool
}.

(** The world once the clock has been read, once a call has answered, and
    once a sleep has ended. *)
Definition read (w : World) : World :=
  {| history := Read :: history w |}.

Definition fetched (w : World) (workspace_id integration_id : Z) : World :=
  {| history := Fetch workspace_id integration_id :: history w |}.

Definition slept (w : World) (delay : spec_float) : World :=
  {| history := Sleep delay :: history w |}.

(** [time.time()]. *)
Definition time_time (clock : Clock) (w : World) : spec_float * World :=
  (time clock w, read w).

Definition await_get_all_agent_configuration
    (api : BitoAPI) (workspace_id integration_id : Z) (w : World) : result pyval * World :=
  (get_all_agent_configuration api workspace_id integration_id w,
   fetched w workspace_id integration_id).

(** [await asyncio.sleep(delay)]. *)
Definition asyncio_sleep (loop : EventLoop) (delay : spec_float) (w : World)
    : result unit * World :=
  (if cancels loop delay w then Err CancelledError else Ok tt, slept w delay).

(** ** The class *)

Module IntegrationUtils.

Record t : Type := mk {
  bito_api : BitoAPI
}.

Definition invalid_config_message : string :=
  "❌ Invalid integration configuration or missing items list".

Definition not_found_message (repository_name : string) : string :=
  "❌ Repository '" +:+ repository_name +:+ "' not found in integration items.".

Definition timeout_message (repository_name : string) (timeout_ms : Z) : string :=
  "⏱️ Timeout: Repo '" +:+ repository_name
    +:+ "' status did not become 'PAUSED' within "
    +:+ str_of_int (timeout_ms / 1000) +:+ "s".

(** Line 100: [(time.time() - start_time) * 1000], where [reading] is what
    [time.time()] returns there, and the test of the [while]. *)
Definition elapsed_ms (start_time reading : spec_float) : spec_float :=
  float_mul (float_sub reading start_time) (float_of_int 1000).

Definition before_deadline (start_time reading : spec_float) (timeout_ms : Z) : bool :=
  float_lt_int (elapsed_ms start_time reading) timeout_ms.

(** Lines 103 to 119: what one response leads to. [Ok (Some item)] is the
    [return matching_item], [Ok None] falls through to the sleep. *)
Definition inspect_response
    (integration_id : Z) (repository_name : string) (response : pyval)
    : result (option pyval) :=
  config_list ← get response "configuration" (PList []);
  configs ← iter config_list;
  config ← next_or_none
              (fun c => v ← get c "integrationId" PNone; Ok (eq_int v integration_id))
              configs;
  invalid ← (if negb (truthy config) then Ok true
              else v ← get config "items" PNone; Ok (negb (is_list v)));
  if invalid : bool then Err (ValueError invalid_config_message)
  else
    items ← getitem config "items";
    entries ← iter items;
    matching_item ← next_or_none
                       (fun item => v ← get item "name" PNone; Ok (eq_str v repository_name))
                       entries;
    if negb (truthy matching_item)
    then Err (ValueError (not_found_message repository_name))
    else
      _ ← getitem matching_item "status";
      status ← getitem matching_item "status";
      if eq_str status "PAUSED" then Ok (Some matching_item) else Ok None.

(** Line 121, then back to the test of the [while], which is [again]: the
    division comes first and can raise, then the sleep, which can be
    cancelled. *)
Definition sleep_then (loop : EventLoop) (interval_ms : Z) (w : World)
    (again : World -> option (result pyval * World)) : option (result pyval * World) :=
  match truediv interval_ms 1000 with
  | Err e => Some (Err e, w)
  | Ok delay =>
      match asyncio_sleep loop delay w with
      | (Err e, w') => Some (Err e, w')
      | (Ok _, w') => again w'
      end
  end.

(** Lines 100 to 123: the loop and the raise after it. *)
Fixpoint wait_loop (fuel : nat) (self : t) (clock : Clock) (loop : EventLoop)
    (workspace_id integration_id : Z) (repository_name : string)
    (timeout_ms interval_ms : Z) (start_time : spec_float) (w : World)
    : option (result pyval * World) :=
  match fuel with
  | O => None
  | S fuel' =>
      let '(reading, w0) := time_time clock w in
      if before_deadline start_time reading timeout_ms then
        let '(reply, w1) :=
          await_get_all_agent_configuration (bito_api self) workspace_id integration_id w0 in
        match reply with
        | Err e => Some (Err e, w1)
        | Ok response =>
            match inspect_response integration_id repository_name response with
            | Err e => Some (Err e, w1)
            | Ok (Some matching_item) => Some (Ok matching_item, w1)
            | Ok None =>
                sleep_then loop interval_ms w1
                  (wait_loop fuel' self clock loop workspace_id integration_id
                     repository_name timeout_ms interval_ms start_time)
            end
        end
      else Some (Err (TimeoutError (timeout_message repository_name timeout_ms)), w0)
  end.

(** Lines 97 and 98, then the loop. The f-string of line 98 divides before
    anything is fetched. *)
Definition wait_for_repo_status_paused (fuel : nat) (self : t)
    (clock : Clock) (loop : EventLoop)
    (workspace_id integration_id : Z) (repository_name : string)
    (timeout_ms interval_ms : Z) (w : World)
    : option (result pyval * World) :=
  let '(start_time, w0) := time_time clock w in
  match truediv timeout_ms 1000 with
  | Err e => Some (Err e, w0)
  | Ok _ =>
      wait_loop fuel self clock loop workspace_id integration_id repository_name
        timeout_ms interval_ms start_time w0
  end.

End IntegrationUtils.

Import IntegrationUtils.

(** ** Snapshots, read the way the specification describes them *)

(** The ordered collection of configuration blocks of a snapshot; a snapshot
    without the key has none. *)
Definition configs_of (response : pyval) : option (list pyval) :=
  match response with
  | PDict top =>
      match top !! "configuration" with
      | None => Some []
      | Some (PList configs) => Some configs
      | Some _ => None
      end
  | _ => None
  end.

(** A configuration block of another integration. *)
Definition other_config (integration_id : Z) (c : pyval) : bool :=
  match c with
  | PDict d => negb (eq_int (default PNone (d !! "integrationId")) integration_id)
  | _ => false
  end.

(** The block carries the requested [integrationId]. *)
Definition config_for (integration_id : Z) (cfg : gmap string pyval) : bool :=
  eq_int (default PNone (cfg !! "integrationId")) integration_id.

(** A repository item with another name, or with none. *)
Definition other_item (repository_name : string) (v : pyval) : bool :=
  match v with
  | PDict d => negb (eq_str (default PNone (d !! "name")) repository_name)
  | _ => false
  end.

(** [selects id name response item rest]: the first block of [response] for
    integration [id] has an items list, the first entry of it named [name]
    is [item], and [rest] is what follows [item] in that list. *)
Inductive selects (integration_id : Z) (repository_name : string)
    (response : pyval) (item : gmap string pyval) (rest : list pyval) : Prop :=
| selects_intro (pre : list pyval) (cfg : gmap string pyval) (post before : list pyval) :
    configs_of response = Some (pre ++ PDict cfg :: post) ->
    forallb (other_config integration_id) pre = true ->
    config_for integration_id cfg = true ->
    cfg !! "items" = Some (PList (before ++ PDict item :: rest)) ->
    forallb (other_item repository_name) before = true ->
    item !! "name" = Some (PStr repository_name) ->
    selects integration_id repository_name response item rest.

(** The three shapes the specification calls structural errors, each with
    the message the method raises for it. *)
Inductive unusable (integration_id : Z) (repository_name : string)
    (response : pyval) : string -> Prop :=
| no_config (configs : list pyval) :
    configs_of response = Some configs ->
    forallb (other_config integration_id) configs = true ->
    unusable integration_id repository_name response invalid_config_message
| no_items_list (pre : list pyval) (cfg : gmap string pyval) (post : list pyval) :
    configs_of response = Some (pre ++ PDict cfg :: post) ->
    forallb (other_config integration_id) pre = true ->
    config_for integration_id cfg = true ->
    is_list (default PNone (cfg !! "items")) = false ->
    unusable integration_id repository_name response invalid_config_message
| no_such_repository (pre : list pyval) (cfg : gmap string pyval) (post items : list pyval) :
    configs_of response = Some (pre ++ PDict cfg :: post) ->
    forallb (other_config integration_id) pre = true ->
    config_for integration_id cfg = true ->
    cfg !! "items" = Some (PList items) ->
    forallb (other_item repository_name) items = true ->
    unusable integration_id repository_name response (not_found_message repository_name).

(** The status of [item] is present and is not the awaited one. *)
Definition pending (item : gmap string pyval) : bool :=
  match item !! "status" with
  | Some s => negb (eq_str s "PAUSED")
  | None => false
  end.

(** The two tests the generator expressions apply. *)
Definition id_test (integration_id : Z) (c : pyval) : result bool :=
  v ← get c "integrationId" PNone; Ok (eq_int v integration_id).

Definition name_test (repository_name : string) (item : pyval) : result bool :=
  v ← get item "name" PNone; Ok (eq_str v repository_name).

(** ** What the specification says of collaborators and messages *)

(** [ms / 1000] is a float: the division of lines 98 and 121 does not
    overflow. It does from about 1.8e311 on. *)
Definition in_float_range (ms : Z) : bool := negb (is_infinite (quotient ms 1000)).

Definition overflow_message : string := "integer division result too large for a float".

(** Every fetch finds the repository, in a status other than the awaited
    one. *)
Definition never_paused (self : IntegrationUtils.t)
    (workspace_id integration_id : Z) (repository_name : string) : Prop :=
  forall w : World, exists response item rest,
    get_all_agent_configuration (bito_api self) workspace_id integration_id w
      = Ok response
    /\ selects integration_id repository_name response item rest
    /\ pending item = true.

(** No sleep is cancelled. *)
Definition never_cancelled (loop : EventLoop) : Prop :=
  forall (delay : spec_float) (w : World), cancels loop delay w = false.

(** [part] occurs in [s]. *)
Definition includes (s part : string) : Prop :=
  exists before after : string, s = before +:+ part +:+ after.

Definition is_timeout_error (e : exn) : bool :=
  match e with
  | TimeoutError _ => true
  | _ => false
  end.

(** The API client raises no built-in [TimeoutError] of its own. *)
Definition api_raises_no_timeout_error (self : IntegrationUtils.t)
    (workspace_id integration_id : Z) : Prop :=
  forall (w : World) (e : exn),
    get_all_agent_configuration (bito_api self) workspace_id integration_id w = Err e ->
    is_timeout_error e = false.

(** [part] occurs in [s], decided. *)
Fixpoint occursb (part s : string) : bool :=
  String.prefix part s ||
  match s with
  | EmptyString => false
  | String _ s' => occursb part s'
  end.

(** ** Further readings of a snapshot and of a run *)

(** [isinstance(v, dict)]: the only values with a [get]. *)
Definition is_dict (v : pyval) : bool :=
  match v with
  | PDict _ => true
  | _ => false
  end.

(** The snapshot has an empty string or an empty dict where the list of
    blocks is expected: iterating it yields nothing. *)
Definition empty_configuration (response : pyval) : bool :=
  match response with
  | PDict top =>
      match top !! "configuration" with
      | Some (PStr s) => String.eqb s ""
      | Some (PDict d) => bool_decide (d = ∅)
      | _ => false
      end
  | _ => false
  end.

(** [k] completed turns of the loop, newest first: each is a reading of
    the clock for the test, a fetch, and a sleep of [interval_ms / 1000]
    seconds. *)
Fixpoint rounds (k : nat) (workspace_id integration_id interval_ms : Z) : list event :=
  match k with
  | O => []
  | S k' =>
      Sleep (quotient interval_ms 1000) :: Fetch workspace_id integration_id :: Read
        :: rounds k' workspace_id integration_id interval_ms
  end.

(** The world in which a call begun in [w] reads the clock for its test
    after [j] turns: line 97 has read the clock once before the first. *)
Definition at_test (j : nat) (workspace_id integration_id interval_ms : Z) (w : World)
    : World :=
  {| history := rounds j workspace_id integration_id interval_ms ++ Read :: history w |}.

(** The elapsed time the call begun in [w] measures at that test. *)
Definition measured (clock : Clock) (j : nat)
    (workspace_id integration_id interval_ms : Z) (w : World) : spec_float :=
  elapsed_ms (time clock w)
    (time clock (at_test j workspace_id integration_id interval_ms w)).

(** The clock as the call begun in [w] measures it is not set back before
    the first test and advances by at least [d] milliseconds a turn: at the
    test after the [j]-th sleep the elapsed time is at least [j * d]. Only
    the tests that can still be reached count. *)
Definition at_least_per_turn (clock : Clock)
    (workspace_id integration_id timeout_ms interval_ms : Z) (d : Z) (w : World) : Prop :=
  forall j : nat, ((1 <= j)%nat -> (Z.of_nat j - 1) * d < timeout_ms) ->
    int_le_float (Z.of_nat j * d)
      (measured clock j workspace_id integration_id interval_ms w) = true.

(** It advances by at most [u] milliseconds a turn, as far as the pace [d]
    lets the loop go. *)
Definition at_most_per_turn (clock : Clock)
    (workspace_id integration_id timeout_ms interval_ms : Z) (d u : Z) (w : World) : Prop :=
  forall j : nat, ((1 <= j)%nat -> (Z.of_nat j - 1) * d < timeout_ms) ->
    float_le_int (measured clock j workspace_id integration_id interval_ms w)
      (Z.of_nat j * u) = true.

(** ** Sample snapshots and collaborators *)

Module Scenario.

Definition repo_item (name status : string) : gmap string pyval :=
  <["name" := PStr name]> (<["status" := PStr status]> {["id" := PInt 7]}).

Definition snapshot (integration_id : Z) (items : pyval) : pyval :=
  PDict {["configuration" :=
            PList [PDict (<["integrationId" := PInt integration_id]> {["items" := items]})]]}.

(** What the wall clock reads [ms] milliseconds after the epoch: the float
    nearest to that many seconds. *)
Definition at_ms (ms : Z) : spec_float := quotient ms 1000.

(** A clock on which, from [epoch], every fetch has taken [fetch_ms] and
    every sleep [sleep_ms]; two readings with no await between them are the
    same. *)
Definition regular (epoch fetch_ms sleep_ms : Z) : Clock :=
  mkClock (fun w => at_ms (epoch + Z.of_nat (fetches w) * fetch_ms
                             + Z.of_nat (sleeps w) * sleep_ms)).

(** A clock that gives the readings of a list one after the other, and the
    last of them from then on. *)
Definition replayed (base : nat) (first : Z) (later : list Z) : Clock :=
  mkClock (fun w => at_ms (List.nth (reads w - base) (first :: later) (List.last later first))).

(** An API that always gives the same answer. *)
Definition steady (answer : result pyval) : IntegrationUtils.t :=
  IntegrationUtils.mk (mkBitoAPI (fun _ _ _ => answer)).

(** An event loop that cancels nobody. *)
Definition punctual : EventLoop := mkEventLoop (fun _ _ => false).

(** An event loop that cancels the task during its [k]-th sleep. *)
Definition interrupting (k : nat) : EventLoop :=
  mkEventLoop (fun _ w => Nat.eqb (S (sleeps w)) k).

Definition discovered : pyval :=
  snapshot 456 (PList [PDict (repo_item "org/repo" "DISCOVERED")]).

Definition paused : pyval :=
  snapshot 456 (PList [PDict (repo_item "org/repo" "PAUSED")]).

(** The awaited repository twice, paused only in the later entry. *)
Definition twice : pyval :=
  snapshot 456 (PList [PDict (repo_item "other/repo" "PAUSED");
                       PDict (repo_item "org/repo" "DISCOVERED");
                       PDict (repo_item "org/repo" "PAUSED")]).

Definition elsewhere : pyval :=
  snapshot 456 (PList [PDict (repo_item "other/repo" "PAUSED")]).

(** The awaited repository without a status. *)
Definition bare : pyval :=
  snapshot 456 (PList [PDict {["name" := PStr "org/repo"]}]).

(** What the [k]-th fetch of a call answers: paused from the third on. *)
Definition schedule (k : nat) : result pyval :=
  Ok (if (k <? 2)%nat then discovered else paused).

(** An API that follows [schedule], in a world that had [base] fetches
    before the call. *)
Definition scripted (base : nat) : IntegrationUtils.t :=
  IntegrationUtils.mk (mkBitoAPI (fun _ _ w => schedule (fetches w - base))).

(** A world with nothing behind it, and one with a turn behind it. *)
Definition dawn : World := {| history := [] |}.

Definition noon : World := {| history := [Sleep (at_ms 500); Fetch 9 9; Read] |}.

(** A quarter of a second for a fetch and a sleep that lasts a millisecond
    longer than the second asked for. *)
Definition weekday : Clock := regular 1700000000000 250 1001.

(** Fetches that answer at once, sleeps that last exactly a tenth of a
    second, from 1.1 s after the epoch. *)
Definition tenths : Clock := regular 1100 0 100.

End Scenario.

(** ** The caller (tests.py) *)

(** Lines 129 to 134 of [test_bito_api_integration]: the wait, called with
    the default timeout and interval, then the two subscripts on the
    returned item. What precedes and follows these lines goes through the
    API client alone. The result is the pair [(repo_id, repo['status'])]. *)
Definition test_wait_for_repo (fuel : nat) (bito_api : BitoAPI)
    (clock : Clock) (loop : EventLoop)
    (workspace_id integration_id : Z) (repository_name : string) (w : World)
    : option (result (pyval * pyval) * World) :=
  let integration_utils := IntegrationUtils.mk bito_api in
  match wait_for_repo_status_paused fuel integration_utils clock loop
          workspace_id integration_id repository_name 15000 1000 w with
  | None => None
  | Some (Err e, w') => Some (Err e, w')
  | Some (Ok repo, w') =>
      Some (repo_id ← getitem repo "id";
            status ← getitem repo "status";
            Ok (repo_id, status), w')
  end.

(** ** The HTTP client (api_utils.py) *)

Module ApiUtils.

Import Stdlib.Strings.Ascii.

(** The exception classes the module tells apart. A subclass of
    [ValueError] or of [AttributeError] counts as its parent; [ExceptionT]
    is any other subclass of [Exception]; [BaseExceptionT] is an exception
    that is no [Exception], such as [asyncio.CancelledError]. *)
Inductive pyclass : Type :=
| RuntimeErrorT
| ValueErrorT
| JSONDecodeErrorT
| AttributeErrorT
| ExceptionT (name : string)
| BaseExceptionT (name : string).

(** A raised exception: its class, [str(e)], and its [__cause__]. *)
Inductive raised : Type :=
| Raised (cls : pyclass) (msg : string) (cause : option raised).

Definition class_of (e : raised) : pyclass := let 'Raised cls _ _ := e in cls.
Definition str (e : raised) : string := let 'Raised _ msg _ := e in msg.

(** [isinstance(e, Exception)]. *)
Definition is_Exception (e : raised) : bool :=
  match class_of e with
  | BaseExceptionT _ => false
  | _ => true
  end.

(** [isinstance(e, (ValueError, AttributeError, json.JSONDecodeError))]. *)
Definition is_parse_error (e : raised) : bool :=
  match class_of e with
  | ValueErrorT | JSONDecodeErrorT | AttributeErrorT => true
  | _ => false
  end.

Inductive outcome (A : Type) : Type :=
| Done (a : A)
| Raise (e : raised).

Arguments Done {A} a.
Arguments Raise {A} e.

(** A response object, as far as [parse_response] looks at it: each field
    is [None] when the object has no such attribute. [text] and [json]
    hold what awaiting the method gives. *)
Record APIResponse : Type := mkAPIResponse {
  status : option Z;
  response_headers : option (gmap string string);
  text : option (outcome string);
  json : option (outcome pyval)
}.

Inductive verb : Type := GET | POST | PUT | DELETE.

(** What a request carries besides its headers: query parameters, or a
    JSON body that may be [None]. *)
Inductive payload : Type :=
| Params (params : gmap string pyval)
| Data (data : option pyval).

(** The calls made to Playwright. A Playwright driver and a request context
    are known by the position in the log of the call that made them. *)
Inductive call : Type :=
| Start
| NewContext (playwright : nat) (base_url : string) (extra_http_headers : gmap string string)
| Dispose (context : nat)
| Stop (playwright : nat)
| Send (context : nat) (v : verb) (endpoint : string)
       (headers : gmap string string) (body : payload).

(** The log of calls, newest first, each with whether it succeeded. *)
Definition log : Type := list (call * bool).

(** Playwright: whether a call made after [l] raises, and what a request
    that does not raise answers. *)
Record Driver : Type := mkDriver {
  fails : log -> call -> option raised;
  responds : log -> call -> APIResponse
}.

Definition invoke (d : Driver) (l : log) (c : call) : option raised * log :=
  let r := fails d l c in
  (r, (c, match r with None => true | Some _ => false end) :: l).

Record t : Type := mk {
  base_url : string;
  headers : gmap string string;
  playwright : option nat;
  context : option nat;
  _initialized : bool
}.

(** [ApiUtils(base_url, headers)]. *)
Definition __init__ (base_url : string) (headers : option (gmap string string)) : t :=
  {| base_url := base_url;
     headers := default ∅ headers;
     playwright := None;
     context := None;
     _initialized := false |}.

(** [cleanup_resources]. *)
Definition cleanup_resources (d : Driver) (self : t) (l : log) : outcome unit * t * log :=
  let disposed :=
    match context self with
    | Some c =>
        match invoke d l (Dispose c) with
        | (Some e, l1) => (Raise e, self, l1)
        | (None, l1) =>
            (Done tt,
             {| base_url := base_url self; headers := headers self;
                playwright := playwright self; context := None;
                _initialized := _initialized self |}, l1)
        end
    | None => (Done tt, self, l)
    end in
  match disposed with
  | (Raise e, self1, l1) => (Raise e, self1, l1)
  | (Done _, self1, l1) =>
      let stopped :=
        match playwright self1 with
        | Some p =>
            match invoke d l1 (Stop p) with
            | (Some e, l2) => (Raise e, self1, l2)
            | (None, l2) =>
                (Done tt,
                 {| base_url := base_url self1; headers := headers self1;
                    playwright := None; context := context self1;
                    _initialized := _initialized self1 |}, l2)
            end
        | None => (Done tt, self1, l1)
        end in
      match stopped with
      | (Raise e, self2, l2) => (Raise e, self2, l2)
      | (Done _, self2, l2) =>
          (Done tt,
           {| base_url := base_url self2; headers := headers self2;
              playwright := playwright self2; context := context self2;
              _initialized := false |}, l2)
      end
  end.

(** The headers every request of the context carries: the instance's own
    override the two defaults. *)
Definition extra_http_headers (self : t) : gmap string string :=
  headers self ∪ <["Accept" := "application/json"]>
                   {["Content-Type" := "application/json"]}.

(** [init]. *)
Definition init (d : Driver) (self : t) (l : log) : outcome unit * t * log :=
  if _initialized self then (Done tt, self, l)
  else
    let tried :=
      match invoke d l Start with
      | (Some e, l1) => (Raise e, self, l1)
      | (None, l1) =>
          let p := length l in
          let self1 :=
            {| base_url := base_url self; headers := headers self;
               playwright := Some p; context := context self;
               _initialized := _initialized self |} in
          match invoke d l1 (NewContext p (base_url self1) (extra_http_headers self1)) with
          | (Some e, l2) => (Raise e, self1, l2)
          | (None, l2) =>
              (Done tt,
               {| base_url := base_url self1; headers := headers self1;
                  playwright := playwright self1; context := Some (length l1);
                  _initialized := true |}, l2)
          end
      end in
    match tried with
    | (Raise e, self', l') =>
        if is_Exception e then
          match cleanup_resources d self' l' with
          | (Raise e', self'', l'') => (Raise e', self'', l'')
          | (Done _, self'', l'') =>
              (Raise (Raised RuntimeErrorT
                        ("Failed to initialize API context: " +:+ str e) (Some e)),
               self'', l'')
          end
        else (Raise e, self', l')
    | done => done
    end.

(** [initialize_new_instance]. *)
Definition initialize_new_instance (d : Driver) (base_url : string)
    (headers : option (gmap string string)) (l : log) : outcome t * t * log :=
  let api := __init__ base_url headers in
  match init d api l with
  | (Raise e, api', l') => (Raise e, api', l')
  | (Done _, api', l') => (Done api', api', l')
  end.

(** [start_session], also [__aenter__]. *)
Definition start_session (d : Driver) (self : t) (l : log) : outcome t * t * log :=
  match init d self l with
  | (Raise e, self', l') => (Raise e, self', l')
  | (Done _, self', l') => (Done self', self', l')
  end.

(** [end_session], also [__aexit__]. *)
Definition end_session (d : Driver) (self : t) (l : log) : outcome unit * t * log :=
  cleanup_resources d self l.

Definition not_initialized_message : string :=
  "API context not initialized. Call init() method first or use with start_session()/end_session().".

(** [_ensure_initialized]. *)
Definition _ensure_initialized (self : t) : outcome unit :=
  if negb (_initialized self) || negb (bool_decide (is_Some (context self)))
  then Raise (Raised RuntimeErrorT not_initialized_message None)
  else Done tt.

(** [s.lstrip('/')]. *)
Fixpoint lstrip_slash (s : string) : string :=
  match s with
  | String "/"%char s' => lstrip_slash s'
  | _ => s
  end.

(** [s.rstrip('/')]. *)
Fixpoint rstrip_slash (s : string) : string :=
  match s with
  | EmptyString => EmptyString
  | String c s' =>
      match rstrip_slash s' with
      | EmptyString => if Ascii.eqb c "/"%char then EmptyString else String c EmptyString
      | r => String c r
      end
  end.

(** [_format_url]. *)
Definition _format_url (self : t) (endpoint : string) : string :=
  rstrip_slash (base_url self) +:+ "/" +:+ lstrip_slash endpoint.

(** The common body of [get], [post], [put] and [delete]: the check, the
    URL formatted for the log, and the request on the context with the
    instance headers overridden by those of the call. *)
Definition request (d : Driver) (self : t) (v : verb) (endpoint : string)
    (headers' : option (gmap string string)) (body : payload) (l : log)
    : outcome APIResponse * t * log :=
  match _ensure_initialized self with
  | Raise e => (Raise e, self, l)
  | Done _ =>
      let full_url := _format_url self endpoint in
      match context self with
      | None =>
          (Raise (Raised AttributeErrorT
                    ("'NoneType' object has no attribute '"
                       +:+ match v with
                           | GET => "get" | POST => "post" | PUT => "put" | DELETE => "delete"
                           end +:+ "'") None), self, l)
      | Some c =>
          let sent := Send c v endpoint (default ∅ headers' ∪ headers self) body in
          match invoke d l sent with
          | (Some e, l1) => (Raise e, self, l1)
          | (None, l1) => (Done (responds d l sent), self, l1)
          end
      end
  end.

(** [get]: [params or {}]. *)
Definition get (d : Driver) (self : t) (endpoint : string)
    (headers' : option (gmap string string)) (params : option (gmap string pyval)) (l : log) :=
  request d self GET endpoint headers' (Params (default ∅ params)) l.

(** [post]. *)
Definition post (d : Driver) (self : t) (endpoint : string)
    (data : option pyval) (headers' : option (gmap string string)) (l : log) :=
  request d self POST endpoint headers' (Data data) l.

(** [put]. *)
Definition put (d : Driver) (self : t) (endpoint : string)
    (data : option pyval) (headers' : option (gmap string string)) (l : log) :=
  request d self PUT endpoint headers' (Data data) l.

(** [delete]: [params or {}]. *)
Definition delete (d : Driver) (self : t) (endpoint : string)
    (headers' : option (gmap string string)) (params : option (gmap string pyval)) (l : log) :=
  request d self DELETE endpoint headers' (Params (default ∅ params)) l.

(** [response.headers.get("content-type", "") if hasattr(response, "headers")
    else ""]. *)
Definition content_type (r : APIResponse) : string :=
  match response_headers r with
  | Some h => default "" (h !! "content-type")
  | None => ""
  end.

(** [parse_response]: [None] stands for a falsy response. The result is
    [None], the decoded JSON, or the text. *)
Definition parse_response (response : option APIResponse) : outcome pyval :=
  match response with
  | None => Done PNone
  | Some r =>
      let tried : outcome pyval :=
        match status r with
        | Some code =>
            if 400 <=? code then
              match default (Done "No error details available") (text r) with
              | Raise e => Raise e
              | Done error_text =>
                  Raise (Raised ValueErrorT
                           ("HTTP Error " +:+ str_of_int code +:+ ": " +:+ error_text) None)
              end
            else Done PNone
        | None => Done PNone
        end in
      let tried : outcome pyval :=
        match tried with
        | Raise e => Raise e
        | Done _ =>
            if occursb "application/json" (content_type r) then
              match json r with
              | Some j => j
              | None => Raise (Raised AttributeErrorT "object has no attribute 'json'" None)
              end
            else
              match text r with
              | Some (Done body) => Done (PStr body)
              | Some (Raise e) => Raise e
              | None => Raise (Raised AttributeErrorT "object has no attribute 'text'" None)
              end
        end in
      match tried with
      | Raise e => if is_parse_error e then Done PNone else Raise e
      | Done v => Done v
      end
  end.

(** The operations a user of an instance can string together. *)
Inductive op : Type :=
| OpInit
| OpCleanup
| OpStartSession
| OpEndSession
| OpRequest (v : verb) (endpoint : string)
            (headers' : option (gmap string string)) (body : payload).

(** One operation, whatever it returns or raises. *)
Definition step (d : Driver) (o : op) (sl : t * log) : t * log :=
  let '(self, l) := sl in
  match o with
  | OpInit => let '(_, self', l') := init d self l in (self', l')
  | OpCleanup => let '(_, self', l') := cleanup_resources d self l in (self', l')
  | OpStartSession => let '(_, self', l') := start_session d self l in (self', l')
  | OpEndSession => let '(_, self', l') := end_session d self l in (self', l')
  | OpRequest v endpoint headers' body =>
      let '(_, self', l') := request d self v endpoint headers' body l in (self', l')
  end.

Definition steps (d : Driver) (ops : list op) (sl : t * log) : t * log :=
  fold_left (fun sl o => step d o sl) ops sl.

(** The Playwright drivers, and the request contexts, that the log shows
    made and not yet released. *)
Definition live_playwrights (l : log) : Z :=
  Z.of_nat (length (List.filter (fun e => match e with (Start, true) => true | _ => false end) l))
  - Z.of_nat (length (List.filter (fun e => match e with (Stop _, true) => true | _ => false end) l)).

Definition live_contexts (l : log) : Z :=
  Z.of_nat (length (List.filter
                      (fun e => match e with (NewContext _ _ _, true) => true | _ => false end) l))
  - Z.of_nat (length (List.filter
                        (fun e => match e with (Dispose _, true) => true | _ => false end) l)).

(** Disposing of a context and stopping a driver never raise. *)
Definition teardown_never_fails (d : Driver) : Prop :=
  forall (l : log) (h : nat), fails d l (Dispose h) = None /\ fails d l (Stop h) = None.

(** Whatever Playwright raises is an [Exception]. *)
Definition raises_only_exceptions (d : Driver) : Prop :=
  forall (l : log) (c : call) (e : raised), fails d l c = Some e -> is_Exception e = true.

(** [n] slashes in a row. *)
Fixpoint slashes (n : nat) : string :=
  match n with
  | O => EmptyString
  | S n' => String "/"%char (slashes n')
  end.

Definition no_trailing_slash (s : string) : Prop := forall s', s <> s' +:+ "/".
Definition no_leading_slash (s : string) : Prop := forall s', s <> "/" +:+ s'.

(** The state an instance is in when it holds nothing. *)
Definition released (self : t) : Prop :=
  playwright self = None /\ context self = None /\ _initialized self = false.

(** The calls [cleanup_resources] makes, newest first: the context is
    disposed of before the driver is stopped. *)
Definition teardown_calls (self : t) : log :=
  match playwright self with Some p => [(Stop p, true)] | None => [] end
  ++ match context self with Some c => [(Dispose c, true)] | None => [] end.

(** The instance once it holds nothing. *)
Definition let_go (self : t) : t :=
  {| base_url := base_url self; headers := headers self;
     playwright := None; context := None; _initialized := false |}.

(** The state of an instance that holds a driver and a context. *)
Definition in_use (self : t) : Prop :=
  is_Some (playwright self) /\ is_Some (context self) /\ _initialized self = true.

(** The instance holds exactly what the log shows live, and is either
    wholly up or wholly down. *)
Definition balanced (self : t) (l : log) : Prop :=
  live_playwrights l = match playwright self with Some _ => 1 | None => 0 end
  /\ live_contexts l = match context self with Some _ => 1 | None => 0 end
  /\ (released self \/ in_use self).

End ApiUtils.

(** Sample Playwright drivers. *)
Module ApiScenario.

Definition json_page : ApiUtils.APIResponse :=
  ApiUtils.mkAPIResponse (Some 200)
    (Some {["content-type" := "application/json; charset=utf-8"]})
    (Some (ApiUtils.Done "{}")) (Some (ApiUtils.Done (PDict ∅))).

Definition not_found_page : ApiUtils.APIResponse :=
  ApiUtils.mkAPIResponse (Some 404) (Some {["content-type" := "text/html"]})
    (Some (ApiUtils.Done "Not Found")) (Some (ApiUtils.Raise
       (ApiUtils.Raised ApiUtils.JSONDecodeErrorT "Expecting value" None))).

(** Every call succeeds. *)
Definition reliable : ApiUtils.Driver :=
  ApiUtils.mkDriver (fun _ _ => None) (fun _ _ => json_page).

(** The first context cannot be created; everything else succeeds. *)
Definition flaky : ApiUtils.Driver :=
  ApiUtils.mkDriver
    (fun l c =>
       match c with
       | ApiUtils.NewContext _ _ _ =>
           if (length l <? 2)%nat
           then Some (ApiUtils.Raised (ApiUtils.ExceptionT "playwright.Error")
                        "connection refused" None)
           else None
       | _ => None
       end)
    (fun _ _ => json_page).

(** The creation of the first context is cancelled. *)
Definition cancelling : ApiUtils.Driver :=
  ApiUtils.mkDriver
    (fun l c =>
       match c with
       | ApiUtils.NewContext _ _ _ =>
           if (length l <? 2)%nat
           then Some (ApiUtils.Raised (ApiUtils.BaseExceptionT "asyncio.CancelledError")
                        "" None)
           else None
       | _ => None
       end)
    (fun _ _ => json_page).

End ApiScenario.

(** ** The generator searches *)

Section Search.

Variable test : pyval -> result bool.

Lemma next_or_none_hit (pre : list pyval) (x : pyval) (post : list pyval) :
  Forall (fun y => test y = Ok false) pre ->
  test x = Ok true ->
  next_or_none test (pre ++ x :: post) = Ok x.
Proof.
  intros Hpre Hx. induction Hpre as [|y pre Hy _ IH]; simpl.
  - now rewrite Hx.
  - now rewrite Hy.
Qed.

Lemma next_or_none_miss (l : list pyval) :
  Forall (fun y => test y = Ok false) l ->
  next_or_none test l = Ok PNone.
Proof.
  intros Hl. induction Hl as [|y l Hy _ IH]; simpl; [reflexivity|].
  now rewrite Hy.
Qed.

End Search.

Lemma other_config_test (integration_id : Z) (l : list pyval) :
  forallb (other_config integration_id) l = true ->
  Forall (fun c => id_test integration_id c = Ok false) l.
Proof.
  intros H. apply Forall_forall. intros c Hc.
  rewrite forallb_forall in H. apply list_elem_of_In in Hc.
  specialize (H c Hc). destruct c; try discriminate.
  unfold id_test; simpl in *. now apply negb_true_iff in H as ->.
Qed.

Lemma other_item_test (repository_name : string) (l : list pyval) :
  forallb (other_item repository_name) l = true ->
  Forall (fun c => name_test repository_name c = Ok false) l.
Proof.
  intros H. apply Forall_forall. intros c Hc.
  rewrite forallb_forall in H. apply list_elem_of_In in Hc.
  specialize (H c Hc). destruct c; try discriminate.
  unfold name_test; simpl in *. now apply negb_true_iff in H as ->.
Qed.

Lemma truthy_with_key (d : gmap string pyval) (key : string) (v : pyval) :
  d !! key = Some v -> truthy (PDict d) = true.
Proof.
  intros H. simpl. case_bool_decide as Hd; [|reflexivity].
  subst d. now rewrite lookup_empty in H.
Qed.

Lemma config_for_truthy (integration_id : Z) (cfg : gmap string pyval) :
  config_for integration_id cfg = true -> truthy (PDict cfg) = true.
Proof.
  unfold config_for. destruct (cfg !! "integrationId") as [v|] eqn:E.
  - intros _. eapply truthy_with_key, E.
  - discriminate.
Qed.

Lemma configs_of_get (response : pyval) (configs : list pyval) :
  configs_of response = Some configs ->
  exists config_list,
    get response "configuration" (PList []) = Ok config_list /\
    iter config_list = Ok configs.
Proof.
  destruct response as [| | | | | |top]; try discriminate. simpl.
  destruct (top !! "configuration") as [[]|]; simpl; try discriminate;
    intros [= <-]; eexists; split; reflexivity.
Qed.

Ltac run_bind := unfold mbind, result_bind; simpl.

(** What the inspection does once the searched block is known. *)
Lemma inspect_response_config (integration_id : Z) (repository_name : string)
    (response : pyval) (pre : list pyval) (cfg : gmap string pyval) (post : list pyval) :
  configs_of response = Some (pre ++ PDict cfg :: post) ->
  forallb (other_config integration_id) pre = true ->
  config_for integration_id cfg = true ->
  inspect_response integration_id repository_name response =
    if is_list (default PNone (cfg !! "items")) then
      items ← getitem (PDict cfg) "items";
      entries ← iter items;
      matching_item ← next_or_none (name_test repository_name) entries;
      if negb (truthy matching_item)
      then Err (ValueError (not_found_message repository_name))
      else
        status ← getitem matching_item "status";
        if eq_str status "PAUSED" then Ok (Some matching_item) else Ok None
    else Err (ValueError invalid_config_message).
Proof.
  intros Hc Hpre Hcfg.
  destruct (configs_of_get _ _ Hc) as (config_list & Hget & Hiter).
  unfold inspect_response. rewrite Hget. run_bind. rewrite Hiter.
  change (fun c : pyval => _) with (id_test integration_id) at 1.
  rewrite (next_or_none_hit (id_test integration_id) pre (PDict cfg) post);
    [| now apply other_config_test
     | unfold id_test; run_bind; unfold config_for in Hcfg; now rewrite Hcfg ].
  rewrite (config_for_truthy _ _ Hcfg). simpl.
  destruct (is_list (default PNone (cfg !! "items"))) eqn:Hl; simpl; [|reflexivity].
  destruct (cfg !! "items") as [items|]; [|discriminate]. simpl.
  destruct (iter items) as [entries|e]; [|reflexivity].
  change (fun item : pyval => _) with (name_test repository_name) at 1.
  destruct (next_or_none (name_test repository_name) entries) as [m|e]; [|reflexivity].
  destruct (truthy m); simpl; [|reflexivity].
  destruct (getitem m "status"); reflexivity.
Qed.


(** The inspection of a snapshot that selects [item] depends on the status
    of [item] alone. *)
Lemma inspect_response_selects (integration_id : Z) (repository_name : string)
    (response : pyval) (item : gmap string pyval) (rest : list pyval) :
  selects integration_id repository_name response item rest ->
  inspect_response integration_id repository_name response =
    match item !! "status" with
    | None => Err (KeyError "status")
    | Some status =>
        if eq_str status "PAUSED" then Ok (Some (PDict item)) else Ok None
    end.
Proof.
  intros [pre cfg post before Hc Hpre Hcfg Hitems Hbefore Hname].
  rewrite (inspect_response_config _ _ _ _ _ _ Hc Hpre Hcfg).
  rewrite Hitems. run_bind. rewrite Hitems. cbn [iter].
  rewrite (next_or_none_hit (name_test repository_name) before (PDict item) rest);
    [| now apply other_item_test
     | unfold name_test; run_bind; rewrite Hname; simpl; now rewrite String.eqb_refl ].
  rewrite (truthy_with_key _ _ _ Hname). simpl.
  destruct (item !! "status"); reflexivity.
Qed.

(** The inspection of an unusable snapshot raises [ValueError]. *)
Lemma inspect_response_unusable (integration_id : Z) (repository_name : string)
    (response : pyval) (msg : string) :
  unusable integration_id repository_name response msg ->
  inspect_response integration_id repository_name response = Err (ValueError msg).
Proof.
  intros [configs Hc Hall | pre cfg post Hc Hpre Hcfg Hl | pre cfg post items Hc Hpre Hcfg Hitems Hall].
  - destruct (configs_of_get _ _ Hc) as (config_list & Hget & Hiter).
    unfold inspect_response. rewrite Hget. run_bind. rewrite Hiter.
    change (fun c : pyval => _) with (id_test integration_id) at 1.
    rewrite next_or_none_miss by now apply other_config_test.
    reflexivity.
  - rewrite (inspect_response_config _ _ _ _ _ _ Hc Hpre Hcfg). now rewrite Hl.
  - rewrite (inspect_response_config _ _ _ _ _ _ Hc Hpre Hcfg).
    rewrite Hitems. run_bind. rewrite Hitems. cbn [iter].
    rewrite next_or_none_miss by now apply other_item_test.
    reflexivity.
Qed.

(** ** Floats against integers *)

Lemma float_lt_int_mono (f : spec_float) (a b : Z) :
  float_lt_int f a = true -> a <= b -> float_lt_int f b = true.
Proof.
  destruct f as [s|s| |s m e]; cbn [float_lt_int]; cbv zeta.
  - intros H Hab. apply Z.ltb_lt in H. apply Z.ltb_lt. lia.
  - intros H _. exact H.
  - discriminate.
  - set (v := if s then Z.neg m else Z.pos m).
    destruct (0 <=? e) eqn:He; intros H Hab; apply Z.ltb_lt in H; apply Z.ltb_lt.
    + apply Z.leb_le in He. assert (0 < 2 ^ e) by (apply Z.pow_pos_nonneg; lia). lia.
    + apply Z.leb_gt in He. assert (0 < 2 ^ (- e)) by (apply Z.pow_pos_nonneg; lia). nia.
Qed.

(** [a <= f] and [f < b] leave room between [a] and [b]. *)
Lemma int_le_float_lt (f : spec_float) (a b : Z) :
  int_le_float a f = true -> float_lt_int f b = true -> a < b.
Proof.
  destruct f as [s|s| |s m e]; cbn [int_le_float float_lt_int]; cbv zeta.
  - intros Ha Hb. apply Z.leb_le in Ha. apply Z.ltb_lt in Hb. lia.
  - intros Ha Hb. rewrite Hb in Ha. discriminate.
  - discriminate.
  - set (v := if s then Z.neg m else Z.pos m).
    destruct (0 <=? e) eqn:He; intros Ha Hb; apply Z.leb_le in Ha; apply Z.ltb_lt in Hb.
    + lia.
    + apply Z.leb_gt in He. assert (0 < 2 ^ (- e)) by (apply Z.pow_pos_nonneg; lia). nia.
Qed.

(** [f <= b] and not [f < a] put [a] at or below [b]. *)
Lemma float_le_int_ge (f : spec_float) (a b : Z) :
  float_le_int f b = true -> float_lt_int f a = false -> a <= b.
Proof.
  destruct f as [s|s| |s m e]; cbn [float_le_int float_lt_int]; cbv zeta.
  - intros Hb Ha. apply Z.leb_le in Hb. apply Z.ltb_ge in Ha. lia.
  - intros Hb Ha. rewrite Hb in Ha. discriminate.
  - discriminate.
  - set (v := if s then Z.neg m else Z.pos m).
    destruct (0 <=? e) eqn:He; intros Hb Ha; apply Z.leb_le in Hb; apply Z.ltb_ge in Ha.
    + lia.
    + apply Z.leb_gt in He. assert (0 < 2 ^ (- e)) by (apply Z.pow_pos_nonneg; lia). nia.
Qed.

(** When the clock reads at the first test what it read at line 97, no
    time has elapsed. *)
Lemma elapsed_ms_at_start (x : spec_float) :
  is_finite x = true -> elapsed_ms x x = S754_zero false.
Proof.
  destruct x as [s|s| |s m e]; try discriminate; intros _.
  - destruct s; reflexivity.
  - unfold elapsed_ms, float_sub, SFsub.
    rewrite Z.min_id. unfold shl_align. rewrite Z.sub_diag. reflexivity.
Qed.

Lemma before_deadline_first (x : spec_float) (timeout_ms : Z) :
  is_finite x = true -> before_deadline x x timeout_ms = (0 <? timeout_ms).
Proof.
  intros H. unfold before_deadline. now rewrite (elapsed_ms_at_start x H).
Qed.

(** ** The two divisions *)

Lemma truediv_in_range (ms : Z) :
  in_float_range ms = true -> truediv ms 1000 = Ok (quotient ms 1000).
Proof.
  unfold in_float_range, truediv. change (1000 =? 0) with false. cbv iota.
  now intros ->%negb_true_iff.
Qed.

Lemma truediv_overflow (ms : Z) :
  in_float_range ms = false -> truediv ms 1000 = Err (OverflowError overflow_message).
Proof.
  unfold in_float_range, truediv. change (1000 =? 0) with false. cbv iota.
  now intros ->%negb_false_iff.
Qed.

Lemma truediv_1000 (ms : Z) :
  truediv ms 1000
  = if in_float_range ms then Ok (quotient ms 1000)
    else Err (OverflowError overflow_message).
Proof.
  destruct (in_float_range ms) eqn:H;
    [now apply truediv_in_range | now apply truediv_overflow].
Qed.

(** ** One turn of the loop *)

Section Cycle.

Variables (self : IntegrationUtils.t) (clock : Clock) (loop : EventLoop).
Variables (workspace_id integration_id : Z) (repository_name : string).
Variables (timeout_ms interval_ms : Z).

(** Past the deadline the loop is left, and the method raises. *)
Lemma wait_loop_expired (fuel : nat) (start_time : spec_float) (w : World) :
  before_deadline start_time (time clock w) timeout_ms = false ->
  wait_loop (S fuel) self clock loop workspace_id integration_id repository_name
    timeout_ms interval_ms start_time w
  = Some (Err (TimeoutError (timeout_message repository_name timeout_ms)), read w).
Proof.
  intros H. simpl. now rewrite H.
Qed.

(** Before the deadline one fetch is made and its answer inspected. *)
Lemma wait_loop_cycle (fuel : nat) (start_time : spec_float) (w : World) :
  before_deadline start_time (time clock w) timeout_ms = true ->
  wait_loop (S fuel) self clock loop workspace_id integration_id repository_name
    timeout_ms interval_ms start_time w
  = let w1 := fetched (read w) workspace_id integration_id in
    match get_all_agent_configuration (bito_api self) workspace_id integration_id
            (read w) with
    | Err e => Some (Err e, w1)
    | Ok response =>
        match inspect_response integration_id repository_name response with
        | Err e => Some (Err e, w1)
        | Ok (Some matching_item) => Some (Ok matching_item, w1)
        | Ok None =>
            sleep_then loop interval_ms w1
              (wait_loop fuel self clock loop workspace_id integration_id repository_name
                 timeout_ms interval_ms start_time)
        end
    end.
Proof.
  intros Hlive. simpl. now rewrite Hlive.
Qed.

(** What line 121 does, by the interval and by what the event loop does to
    the sleeper. *)
Lemma sleep_then_unfold (w : World) (again : World -> option (result pyval * World)) :
  sleep_then loop interval_ms w again
  = if in_float_range interval_ms then
      if cancels loop (quotient interval_ms 1000) w
      then Some (Err CancelledError, slept w (quotient interval_ms 1000))
      else again (slept w (quotient interval_ms 1000))
    else Some (Err (OverflowError overflow_message), w).
Proof.
  unfold sleep_then. rewrite truediv_1000.
  destruct (in_float_range interval_ms); [|reflexivity].
  unfold asyncio_sleep. now destruct (cancels loop _ w).
Qed.

(** The worlds in which the tests are made. *)
Lemma at_test_first (w : World) :
  at_test 0 workspace_id integration_id interval_ms w = read w.
Proof. reflexivity. Qed.

Lemma at_test_next (j : nat) (w : World) :
  at_test (S j) workspace_id integration_id interval_ms w
  = slept (fetched (read (at_test j workspace_id integration_id interval_ms w))
             workspace_id integration_id)
      (quotient interval_ms 1000).
Proof. reflexivity. Qed.

Lemma at_test_counts (j : nat) (w : World) :
  fetches (at_test j workspace_id integration_id interval_ms w) = (fetches w + j)%nat
  /\ sleeps (at_test j workspace_id integration_id interval_ms w) = (sleeps w + j)%nat
  /\ reads (at_test j workspace_id integration_id interval_ms w) = (reads w + S j)%nat.
Proof.
  unfold fetches, sleeps, reads, at_test. cbn [history].
  induction j as [|j (IHf & IHs & IHr)]; cbn [rounds app List.filter is_fetch is_sleep is_read length].
  - repeat split; lia.
  - rewrite IHf, IHs, IHr. repeat split; lia.
Qed.

End Cycle.

(** ** The properties of the specification *)

(** C1. On every poll cycle whose fetched snapshot selects, for the requested
    integration and repository name, an item with status "PAUSED" (the first
    entry with the name, the only one when names are unique), the method
    returns that item on that cycle: the world it leaves is the one right
    after the fetch, with no sleep after it. When this happens on the first
    cycle of a call, which is reached once line 98 has formatted the
    timeout, the call makes exactly one fetch and no sleep. *)
Theorem paused_item_returned_at_once
    (self : IntegrationUtils.t) (clock : Clock) (loop : EventLoop)
    (workspace_id integration_id : Z) (repository_name : string)
    (timeout_ms interval_ms : Z)
    (fuel : nat) (start_time : spec_float) (w : World)
    (response : pyval) (item : gmap string pyval) (rest : list pyval) :
  before_deadline start_time (time clock w) timeout_ms = true ->
  get_all_agent_configuration (bito_api self) workspace_id integration_id (read w)
    = Ok response ->
  selects integration_id repository_name response item rest ->
  item !! "status" = Some (PStr "PAUSED") ->
  let w1 := fetched (read w) workspace_id integration_id in
  wait_loop (S fuel) self clock loop workspace_id integration_id repository_name
    timeout_ms interval_ms start_time w = Some (Ok (PDict item), w1)
  /\ history w1 = Fetch workspace_id integration_id :: Read :: history w
  /\ (forall w0 : World,
        in_float_range timeout_ms = true ->
        start_time = time clock w0 ->
        w = read w0 ->
        wait_for_repo_status_paused (S fuel) self clock loop workspace_id integration_id
          repository_name timeout_ms interval_ms w0 = Some (Ok (PDict item), w1)
        /\ fetches w1 = S (fetches w0) /\ sleeps w1 = sleeps w0).
Proof.
  intros Hlive Hget Hsel Hst w1.
  assert (Hrun : wait_loop (S fuel) self clock loop workspace_id integration_id
            repository_name timeout_ms interval_ms start_time w
          = Some (Ok (PDict item), w1)).
  { rewrite (wait_loop_cycle _ _ _ _ _ _ _ _ _ _ _ Hlive). cbv zeta. rewrite Hget.
    rewrite (inspect_response_selects _ _ _ _ _ Hsel), Hst. reflexivity. }
  split; [exact Hrun|]. split; [reflexivity|].
  intros w0 Hrange Hstart Hw. subst w start_time. split; [|split; reflexivity].
  unfold wait_for_repo_status_paused, time_time.
  rewrite (truediv_in_range _ Hrange). exact Hrun.
Qed.

Lemma paused_item_returned_at_once_witness :
  let self := Scenario.steady (Ok Scenario.twice) in
  let clock := Scenario.weekday in
  let w := read Scenario.dawn in
  let w1 := fetched (read w) 123 456 in
  wait_loop 1 self clock Scenario.punctual 123 456 "other/repo" 15000 1000
    (time clock Scenario.dawn) w
    = Some (Ok (PDict (Scenario.repo_item "other/repo" "PAUSED")), w1)
  /\ history w1 = Fetch 123 456 :: Read :: history w
  /\ (forall w0 : World,
        in_float_range 15000 = true ->
        time clock Scenario.dawn = time clock w0 ->
        w = read w0 ->
        wait_for_repo_status_paused 1 self clock Scenario.punctual 123 456 "other/repo"
          15000 1000 w0
        = Some (Ok (PDict (Scenario.repo_item "other/repo" "PAUSED")), w1)
        /\ fetches w1 = S (fetches w0) /\ sleeps w1 = sleeps w0).
Proof.
  apply (paused_item_returned_at_once
           (Scenario.steady (Ok Scenario.twice)) Scenario.weekday Scenario.punctual
           123 456 "other/repo" 15000 1000 0
           (time Scenario.weekday Scenario.dawn) (read Scenario.dawn)
           Scenario.twice
           (Scenario.repo_item "other/repo" "PAUSED")
           [PDict (Scenario.repo_item "org/repo" "DISCOVERED");
            PDict (Scenario.repo_item "org/repo" "PAUSED")]).
  - vm_compute. reflexivity.
  - reflexivity.
  - apply (selects_intro 456 "other/repo" Scenario.twice _ _ []
             (<["integrationId" := PInt 456]>
                {["items" := PList [PDict (Scenario.repo_item "other/repo" "PAUSED");
                                    PDict (Scenario.repo_item "org/repo" "DISCOVERED");
                                    PDict (Scenario.repo_item "org/repo" "PAUSED")]]})
             [] []); reflexivity.
  - reflexivity.
Defined.

(** C2, as the code has it. When the first test of the deadline passes (the
    timeout is then positive, unless the clock was set back) and the first
    fetch returns a snapshot that has no block for the requested
    integration, or whose block has no items list, or whose items list has
    no entry with the repository name, the call raises [ValueError] on that
    first cycle, after exactly one fetch and no sleep, for every timeout
    whose value in seconds is a float: it does not wait out the deadline. *)
Theorem unusable_snapshot_fails_on_first_cycle
    (self : IntegrationUtils.t) (clock : Clock) (loop : EventLoop)
    (workspace_id integration_id : Z) (repository_name : string)
    (timeout_ms interval_ms : Z)
    (fuel : nat) (w : World) (response : pyval) (msg : string) :
  in_float_range timeout_ms = true ->
  before_deadline (time clock w) (time clock (read w)) timeout_ms = true ->
  get_all_agent_configuration (bito_api self) workspace_id integration_id (read (read w))
    = Ok response ->
  unusable integration_id repository_name response msg ->
  let w1 := fetched (read (read w)) workspace_id integration_id in
  wait_for_repo_status_paused (S fuel) self clock loop workspace_id integration_id
    repository_name timeout_ms interval_ms w = Some (Err (ValueError msg), w1)
  /\ history w1 = Fetch workspace_id integration_id :: Read :: Read :: history w
  /\ fetches w1 = S (fetches w) /\ sleeps w1 = sleeps w.
Proof.
  intros Hrange Hlive Hget Hbad w1. split; [|repeat split].
  unfold wait_for_repo_status_paused, time_time. rewrite (truediv_in_range _ Hrange).
  rewrite (wait_loop_cycle _ _ _ _ _ _ _ _ _ _ _ Hlive). cbv zeta. rewrite Hget.
  now rewrite (inspect_response_unusable _ _ _ _ Hbad).
Qed.

Lemma unusable_snapshot_fails_on_first_cycle_witness :
  let self := Scenario.steady (Ok Scenario.elsewhere) in
  let w := Scenario.dawn in
  let w1 := fetched (read (read w)) 123 456 in
  wait_for_repo_status_paused 1 self Scenario.weekday Scenario.punctual
    123 456 "org/repo" 3600000 1000 w
  = Some (Err (ValueError (not_found_message "org/repo")), w1)
  /\ history w1 = Fetch 123 456 :: Read :: Read :: history w
  /\ fetches w1 = S (fetches w) /\ sleeps w1 = sleeps w.
Proof.
  apply (unusable_snapshot_fails_on_first_cycle
           (Scenario.steady (Ok Scenario.elsewhere)) Scenario.weekday Scenario.punctual
           123 456 "org/repo" 3600000 1000 0 Scenario.dawn
           Scenario.elsewhere (not_found_message "org/repo")).
  - reflexivity.
  - vm_compute. reflexivity.
  - reflexivity.
  - apply (no_such_repository 456 "org/repo" Scenario.elsewhere []
             (<["integrationId" := PInt 456]>
                {["items" := PList [PDict (Scenario.repo_item "other/repo" "PAUSED")]]})
             [] [PDict (Scenario.repo_item "other/repo" "PAUSED")]); reflexivity.
Defined.

(** C2 as stated fails: it does depend on the timeout. The API would
    answer every fetch with a snapshot that lacks the repository, and yet
    no fetch is made and no [ValueError] raised: with a timeout of 0 the
    deadline test, which comes first, fails and the call raises
    [TimeoutError]; with a timeout of 10 ^ 400 ms line 98 raises
    [OverflowError]. *)
Lemma timeout_decides_before_the_snapshot :
  let self := Scenario.steady (Ok Scenario.elsewhere) in
  unusable 456 "org/repo" Scenario.elsewhere (not_found_message "org/repo")
  /\ wait_for_repo_status_paused 5 self Scenario.weekday Scenario.punctual
       123 456 "org/repo" 0 1000 Scenario.dawn
     = Some (Err (TimeoutError (timeout_message "org/repo" 0)), read (read Scenario.dawn))
  /\ wait_for_repo_status_paused 5 self Scenario.weekday Scenario.punctual
       123 456 "org/repo" (10 ^ 400) 1000 Scenario.dawn
     = Some (Err (OverflowError overflow_message), read Scenario.dawn)
  /\ fetches (read (read Scenario.dawn)) = 0%nat.
Proof.
  split; [|split; [|split]].
  - apply (no_such_repository 456 "org/repo" Scenario.elsewhere []
             (<["integrationId" := PInt 456]>
                {["items" := PList [PDict (Scenario.repo_item "other/repo" "PAUSED")]]})
             [] [PDict (Scenario.repo_item "other/repo" "PAUSED")]); reflexivity.
  - vm_compute. reflexivity.
  - vm_compute. reflexivity.
  - reflexivity.
Qed.

(** C5. On every poll cycle on which the fetch raises, the method ends there
    with that very exception: it is neither wrapped nor replaced, and the
    world left is the one right after the failed fetch, so no fetch and no
    sleep follows. *)
Theorem fetch_error_propagates
    (self : IntegrationUtils.t) (clock : Clock) (loop : EventLoop)
    (workspace_id integration_id : Z) (repository_name : string)
    (timeout_ms interval_ms : Z)
    (fuel : nat) (start_time : spec_float) (w : World) (e : exn) :
  before_deadline start_time (time clock w) timeout_ms = true ->
  get_all_agent_configuration (bito_api self) workspace_id integration_id (read w)
    = Err e ->
  let w1 := fetched (read w) workspace_id integration_id in
  wait_loop (S fuel) self clock loop workspace_id integration_id repository_name
    timeout_ms interval_ms start_time w = Some (Err e, w1)
  /\ history w1 = Fetch workspace_id integration_id :: Read :: history w.
Proof.
  intros Hlive Hget w1. split; [|reflexivity].
  rewrite (wait_loop_cycle _ _ _ _ _ _ _ _ _ _ _ Hlive). cbv zeta. now rewrite Hget.
Qed.

Lemma fetch_error_propagates_witness :
  let boom := ApiError "playwright.Error" "socket hang up" in
  let self := Scenario.steady (Err boom) in
  let w := at_test 3 123 456 1000 Scenario.dawn in
  let w1 := fetched (read w) 123 456 in
  wait_loop 1 self Scenario.weekday Scenario.punctual 123 456 "org/repo" 15000 1000
    (time Scenario.weekday Scenario.dawn) w = Some (Err boom, w1)
  /\ history w1 = Fetch 123 456 :: Read :: history w.
Proof.
  apply (fetch_error_propagates
           (Scenario.steady (Err (ApiError "playwright.Error" "socket hang up")))
           Scenario.weekday Scenario.punctual 123 456 "org/repo" 15000 1000 0
           (time Scenario.weekday Scenario.dawn)
           (at_test 3 123 456 1000 Scenario.dawn)
           (ApiError "playwright.Error" "socket hang up")).
  - vm_compute. reflexivity.
  - reflexivity.
Defined.

(** C10, as the code has it. With a timeout of zero or less whose value in
    seconds is a float, and a clock that was not set back between the
    reading of line 97 and the first test, the call makes no fetch and no
    sleep: the deadline test comes first, so the call raises
    [TimeoutError] having only read the clock twice. *)
Theorem non_positive_timeout_fails_without_fetch
    (self : IntegrationUtils.t) (clock : Clock) (loop : EventLoop)
    (workspace_id integration_id : Z) (repository_name : string)
    (timeout_ms interval_ms : Z) (fuel : nat) (w : World) :
  timeout_ms <= 0 ->
  in_float_range timeout_ms = true ->
  int_le_float 0 (elapsed_ms (time clock w) (time clock (read w))) = true ->
  let w' := read (read w) in
  wait_for_repo_status_paused (S fuel) self clock loop workspace_id integration_id
    repository_name timeout_ms interval_ms w
  = Some (Err (TimeoutError (timeout_message repository_name timeout_ms)), w')
  /\ fetches w' = fetches w /\ sleeps w' = sleeps w.
Proof.
  intros H Hrange Hclock w'. split; [|split; reflexivity].
  unfold wait_for_repo_status_paused, time_time. rewrite (truediv_in_range _ Hrange).
  apply wait_loop_expired.
  destruct (before_deadline (time clock w) (time clock (read w)) timeout_ms) eqn:E;
    [|reflexivity].
  pose proof (int_le_float_lt _ _ _ Hclock E). lia.
Qed.

Lemma non_positive_timeout_fails_without_fetch_witness :
  let self := Scenario.steady (Ok Scenario.paused) in
  let w' := read (read Scenario.dawn) in
  wait_for_repo_status_paused 1 self Scenario.weekday Scenario.punctual
    123 456 "org/repo" 0 1000 Scenario.dawn
  = Some (Err (TimeoutError (timeout_message "org/repo" 0)), w')
  /\ fetches w' = fetches Scenario.dawn /\ sleeps w' = sleeps Scenario.dawn.
Proof.
  apply (non_positive_timeout_fails_without_fetch
           (Scenario.steady (Ok Scenario.paused)) Scenario.weekday Scenario.punctual
           123 456 "org/repo" 0 1000 0 Scenario.dawn).
  - lia.
  - reflexivity.
  - vm_compute. reflexivity.
Defined.

(** C10 as stated fails. With a timeout of -10 ^ 400 ms the call raises
    [OverflowError] at line 98, not [TimeoutError]. And with a timeout of
    -1 ms, a clock that read 10 s at line 97 and is set back to 5 s before
    the first test measures -5000 ms, which is below the timeout: the call
    fetches, and here returns the paused item. *)
Lemma negative_timeout_can_overflow_or_fetch :
  let self := Scenario.steady (Ok Scenario.paused) in
  wait_for_repo_status_paused 5 self Scenario.weekday Scenario.punctual
    123 456 "org/repo" (- 10 ^ 400) 1000 Scenario.dawn
  = Some (Err (OverflowError overflow_message), read Scenario.dawn)
  /\ elapsed_ms (Scenario.at_ms 10000) (Scenario.at_ms 5000) = float_of_int (- 5000)
  /\ wait_for_repo_status_paused 5 self (Scenario.replayed 0 10000 [5000]) Scenario.punctual
       123 456 "org/repo" (- 1) 1000 Scenario.dawn
     = Some (Ok (PDict (Scenario.repo_item "org/repo" "PAUSED")),
             fetched (read (read Scenario.dawn)) 123 456).
Proof.
  split; [|split]; vm_compute; reflexivity.
Qed.

(** C7. When the items list holds the repository name more than once, the
    cycle is decided by the first entry with that name, in list order: the
    method raises, returns that entry or goes on to the sleep according to
    its status alone, and whatever follows it in the list (entries with the
    same name included) has no effect on the inspection. *)
Theorem first_named_item_decides
    (self : IntegrationUtils.t) (clock : Clock) (loop : EventLoop)
    (workspace_id integration_id : Z) (repository_name : string)
    (timeout_ms interval_ms : Z)
    (fuel : nat) (start_time : spec_float) (w : World)
    (response : pyval) (item : gmap string pyval) (rest : list pyval) :
  before_deadline start_time (time clock w) timeout_ms = true ->
  get_all_agent_configuration (bito_api self) workspace_id integration_id (read w)
    = Ok response ->
  selects integration_id repository_name response item rest ->
  let w1 := fetched (read w) workspace_id integration_id in
  wait_loop (S fuel) self clock loop workspace_id integration_id repository_name
    timeout_ms interval_ms start_time w
  = match item !! "status" with
    | None => Some (Err (KeyError "status"), w1)
    | Some status =>
        if eq_str status "PAUSED" then Some (Ok (PDict item), w1)
        else sleep_then loop interval_ms w1
               (wait_loop fuel self clock loop workspace_id integration_id
                  repository_name timeout_ms interval_ms start_time)
    end
  /\ (forall (response' : pyval) (rest' : list pyval),
        selects integration_id repository_name response' item rest' ->
        inspect_response integration_id repository_name response'
        = inspect_response integration_id repository_name response).
Proof.
  intros Hlive Hget Hsel w1. split.
  - rewrite (wait_loop_cycle _ _ _ _ _ _ _ _ _ _ _ Hlive). cbv zeta. rewrite Hget.
    rewrite (inspect_response_selects _ _ _ _ _ Hsel).
    destruct (item !! "status") as [status|]; [|reflexivity].
    destruct (eq_str status "PAUSED"); reflexivity.
  - intros response' rest' Hsel'.
    now rewrite (inspect_response_selects _ _ _ _ _ Hsel),
                (inspect_response_selects _ _ _ _ _ Hsel').
Qed.

Lemma first_named_item_decides_witness :
  let self := Scenario.steady (Ok Scenario.twice) in
  let clock := Scenario.weekday in
  let w := read Scenario.dawn in
  let item := Scenario.repo_item "org/repo" "DISCOVERED" in
  let w1 := fetched (read w) 123 456 in
  wait_loop 1 self clock Scenario.punctual 123 456 "org/repo" 15000 1000
    (time clock Scenario.dawn) w
  = match item !! "status" with
    | None => Some (Err (KeyError "status"), w1)
    | Some status =>
        if eq_str status "PAUSED" then Some (Ok (PDict item), w1)
        else sleep_then Scenario.punctual 1000 w1
               (wait_loop 0 self clock Scenario.punctual 123 456 "org/repo" 15000 1000
                  (time clock Scenario.dawn))
    end
  /\ (forall (response' : pyval) (rest' : list pyval),
        selects 456 "org/repo" response' item rest' ->
        inspect_response 456 "org/repo" response'
        = inspect_response 456 "org/repo" Scenario.twice).
Proof.
  apply (first_named_item_decides
           (Scenario.steady (Ok Scenario.twice)) Scenario.weekday Scenario.punctual
           123 456 "org/repo" 15000 1000 0
           (time Scenario.weekday Scenario.dawn) (read Scenario.dawn)
           Scenario.twice
           (Scenario.repo_item "org/repo" "DISCOVERED")
           [PDict (Scenario.repo_item "org/repo" "PAUSED")]).
  - vm_compute. reflexivity.
  - reflexivity.
  - apply (selects_intro 456 "org/repo" Scenario.twice _ _ []
             (<["integrationId" := PInt 456]>
                {["items" := PList [PDict (Scenario.repo_item "other/repo" "PAUSED");
                                    PDict (Scenario.repo_item "org/repo" "DISCOVERED");
                                    PDict (Scenario.repo_item "org/repo" "PAUSED")]]})
             [] [PDict (Scenario.repo_item "other/repo" "PAUSED")]); reflexivity.
Defined.

(** C9. When the first entry named like the repository has no status field,
    the cycle ends with [KeyError('status')], raised by the subscript, and
    neither with [ValueError] nor with [TimeoutError]; for a snapshot that
    selects an entry, the inspection raises that [KeyError] exactly when the
    selected entry lacks the field, so it raises none when every entry with
    the name carries one. *)
Theorem missing_status_raises_key_error
    (self : IntegrationUtils.t) (clock : Clock) (loop : EventLoop)
    (workspace_id integration_id : Z) (repository_name : string)
    (timeout_ms interval_ms : Z)
    (fuel : nat) (start_time : spec_float) (w : World)
    (response : pyval) (item : gmap string pyval) (rest : list pyval) :
  before_deadline start_time (time clock w) timeout_ms = true ->
  get_all_agent_configuration (bito_api self) workspace_id integration_id (read w)
    = Ok response ->
  selects integration_id repository_name response item rest ->
  (item !! "status" = None ->
   wait_loop (S fuel) self clock loop workspace_id integration_id repository_name
     timeout_ms interval_ms start_time w
   = Some (Err (KeyError "status"), fetched (read w) workspace_id integration_id))
  /\ (forall key : string,
        inspect_response integration_id repository_name response = Err (KeyError key)
        <-> key = "status" /\ item !! "status" = None).
Proof.
  intros Hlive Hget Hsel. split.
  - intros Hnone.
    rewrite (wait_loop_cycle _ _ _ _ _ _ _ _ _ _ _ Hlive). cbv zeta. rewrite Hget.
    now rewrite (inspect_response_selects _ _ _ _ _ Hsel), Hnone.
  - intros key. rewrite (inspect_response_selects _ _ _ _ _ Hsel).
    destruct (item !! "status") as [status|].
    + destruct (eq_str status "PAUSED"); split; try discriminate; intros [_ [=]].
    + split; [intros [= <-]; now split | intros [-> _]; reflexivity].
Qed.

Lemma missing_status_raises_key_error_witness :
  let self := Scenario.steady (Ok Scenario.bare) in
  let clock := Scenario.weekday in
  let w := read Scenario.dawn in
  let item : gmap string pyval := {["name" := PStr "org/repo"]} in
  (item !! "status" = None ->
   wait_loop 1 self clock Scenario.punctual 123 456 "org/repo" 15000 1000
     (time clock Scenario.dawn) w
   = Some (Err (KeyError "status"), fetched (read w) 123 456))
  /\ (forall key : string,
        inspect_response 456 "org/repo" Scenario.bare = Err (KeyError key)
        <-> key = "status" /\ item !! "status" = None).
Proof.
  apply (missing_status_raises_key_error
           (Scenario.steady (Ok Scenario.bare)) Scenario.weekday Scenario.punctual
           123 456 "org/repo" 15000 1000 0
           (time Scenario.weekday Scenario.dawn) (read Scenario.dawn)
           Scenario.bare
           {["name" := PStr "org/repo"]} []).
  - vm_compute. reflexivity.
  - reflexivity.
  - apply (selects_intro 456 "org/repo" Scenario.bare _ _ []
             (<["integrationId" := PInt 456]>
                {["items" := PList [PDict {["name" := PStr "org/repo"]}]]})
             [] []); reflexivity.
Defined.

(** ** A repository that is not paused yet *)

Lemma inspect_response_pending (integration_id : Z) (repository_name : string)
    (response : pyval) (item : gmap string pyval) (rest : list pyval) :
  selects integration_id repository_name response item rest ->
  pending item = true ->
  inspect_response integration_id repository_name response = Ok None.
Proof.
  intros Hsel Hpend. rewrite (inspect_response_selects _ _ _ _ _ Hsel).
  unfold pending in Hpend. destruct (item !! "status") as [status|]; [|discriminate].
  now apply negb_true_iff in Hpend as ->.
Qed.

(** C4, as the code has it. With an interval at least as long as the
    timeout, both in the range where the value in seconds is a float, a call
    whose first test of the deadline passes and whose first fetch returns a
    well-formed snapshot in which the selected entry has another status
    makes exactly that one fetch and one sleep and then raises
    [TimeoutError], provided the sleep is not cancelled and the elapsed time
    the code measures after it, the float
    [(time.time() - start_time) * 1000], is at least the interval. *)
Theorem long_interval_allows_one_fetch
    (self : IntegrationUtils.t) (clock : Clock) (loop : EventLoop)
    (workspace_id integration_id : Z) (repository_name : string)
    (timeout_ms interval_ms : Z)
    (fuel : nat) (w : World)
    (response : pyval) (item : gmap string pyval) (rest : list pyval) :
  timeout_ms <= interval_ms ->
  in_float_range timeout_ms = true ->
  in_float_range interval_ms = true ->
  before_deadline (time clock w) (time clock (read w)) timeout_ms = true ->
  get_all_agent_configuration (bito_api self) workspace_id integration_id (read (read w))
    = Ok response ->
  selects integration_id repository_name response item rest ->
  pending item = true ->
  cancels loop (quotient interval_ms 1000)
    (fetched (read (read w)) workspace_id integration_id) = false ->
  int_le_float interval_ms (measured clock 1 workspace_id integration_id interval_ms w)
    = true ->
  let w' := read (at_test 1 workspace_id integration_id interval_ms w) in
  wait_for_repo_status_paused (S (S fuel)) self clock loop workspace_id integration_id
    repository_name timeout_ms interval_ms w
  = Some (Err (TimeoutError (timeout_message repository_name timeout_ms)), w')
  /\ fetches w' = S (fetches w) /\ sleeps w' = S (sleeps w).
Proof.
  intros Hle HT HI Hlive Hget Hsel Hpend Hcalm Hlong w'.
  split; [|split; reflexivity].
  unfold wait_for_repo_status_paused, time_time. rewrite (truediv_in_range _ HT).
  rewrite (wait_loop_cycle _ _ _ _ _ _ _ _ _ _ _ Hlive). cbv zeta. rewrite Hget.
  rewrite (inspect_response_pending _ _ _ _ _ Hsel Hpend).
  rewrite sleep_then_unfold, HI, Hcalm.
  apply wait_loop_expired.
  change (slept (fetched (read (read w)) workspace_id integration_id)
            (quotient interval_ms 1000))
    with (at_test 1 workspace_id integration_id interval_ms w).
  destruct (before_deadline (time clock w)
              (time clock (at_test 1 workspace_id integration_id interval_ms w))
              timeout_ms) eqn:E; [|reflexivity].
  pose proof (int_le_float_lt _ _ _ Hlong E). lia.
Qed.

Lemma long_interval_allows_one_fetch_witness :
  let self := Scenario.steady (Ok Scenario.discovered) in
  let w := Scenario.dawn in
  let w' := read (at_test 1 123 456 1000 w) in
  wait_for_repo_status_paused 2 self Scenario.weekday Scenario.punctual
    123 456 "org/repo" 1000 1000 w
  = Some (Err (TimeoutError (timeout_message "org/repo" 1000)), w')
  /\ fetches w' = S (fetches w) /\ sleeps w' = S (sleeps w).
Proof.
  apply (long_interval_allows_one_fetch
           (Scenario.steady (Ok Scenario.discovered)) Scenario.weekday Scenario.punctual
           123 456 "org/repo" 1000 1000 0 Scenario.dawn
           Scenario.discovered
           (Scenario.repo_item "org/repo" "DISCOVERED") []).
  - lia.
  - reflexivity.
  - reflexivity.
  - vm_compute. reflexivity.
  - reflexivity.
  - apply (selects_intro 456 "org/repo" Scenario.discovered _ _ []
             (<["integrationId" := PInt 456]>
                {["items" := PList [PDict (Scenario.repo_item "org/repo" "DISCOVERED")]]})
             [] []); reflexivity.
  - reflexivity.
  - reflexivity.
  - vm_compute. reflexivity.
Defined.

(** C4 as stated fails: with a timeout and an interval of 100 ms, a call
    begun when the clock reads 1.1 s, whose fetch answers at once and whose
    sleep ends when the clock reads 1.2 s, measures
    [(1.2 - 1.1) * 1000 = 99.99999999999987 < 100] and fetches a second
    time. The snapshot is well formed and the repository is in another
    status. *)
Lemma rounded_elapsed_time_allows_second_fetch :
  let self := Scenario.steady (Ok Scenario.discovered) in
  let clock := Scenario.tenths in
  let w := Scenario.dawn in
  never_paused self 123 456 "org/repo"
  /\ time clock w = Scenario.at_ms 1100
  /\ time clock (at_test 1 123 456 100 w) = Scenario.at_ms 1200
  /\ elapsed_ms (Scenario.at_ms 1100) (Scenario.at_ms 1200)
     = S754_finite false 7036874417766391 (-46)
  /\ before_deadline (Scenario.at_ms 1100) (Scenario.at_ms 1200) 100 = true
  /\ exists w' : World,
       wait_for_repo_status_paused 3 self clock Scenario.punctual
         123 456 "org/repo" 100 100 w
       = Some (Err (TimeoutError (timeout_message "org/repo" 100)), w')
       /\ fetches w' = 2%nat.
Proof.
  split; [|split; [|split; [|split; [|split]]]].
  - intros w. exists Scenario.discovered, (Scenario.repo_item "org/repo" "DISCOVERED"), [].
    split; [reflexivity|]. split; [|reflexivity].
    apply (selects_intro 456 "org/repo" Scenario.discovered _ _ []
             (<["integrationId" := PInt 456]>
                {["items" := PList [PDict (Scenario.repo_item "org/repo" "DISCOVERED")]]})
             [] []); reflexivity.
  - reflexivity.
  - reflexivity.
  - vm_compute. reflexivity.
  - vm_compute. reflexivity.
  - eexists. split; [vm_compute; reflexivity|]. reflexivity.
Qed.

(** ** The pace of the clock *)

Section Paced.

Variables (self : IntegrationUtils.t) (clock : Clock) (loop : EventLoop).
Variables (workspace_id integration_id : Z) (repository_name : string).
Variables (timeout_ms interval_ms d : Z).
Variable w : World.

Hypothesis pace_positive : 0 < d.
Hypothesis pace : at_least_per_turn clock workspace_id integration_id
                    timeout_ms interval_ms d w.

Let test (k : nat) : World := at_test k workspace_id integration_id interval_ms w.

Let run (fuel : nat) (u : World) :=
  wait_loop fuel self clock loop workspace_id integration_id repository_name
    timeout_ms interval_ms (time clock w) u.

(** A test that passes after [k] turns leaves the timeout above [k * d]. *)
Lemma live_after_turns (k : nat) :
  ((1 <= k)%nat -> (Z.of_nat k - 1) * d < timeout_ms) ->
  before_deadline (time clock w) (time clock (test k)) timeout_ms = true ->
  Z.of_nat k * d < timeout_ms.
Proof.
  intros Hk Hlive. apply (int_le_float_lt _ _ _ (pace k Hk) Hlive).
Qed.

(** Whatever the collaborators do, the loop ends, after [n] fetches in all
    with [(n - 1) * d] below the timeout. *)
Lemma wait_loop_ends (m : nat) :
  forall k : nat,
  timeout_ms <= Z.of_nat k + Z.of_nat m ->
  ((1 <= k)%nat -> (Z.of_nat k - 1) * d < timeout_ms) ->
  exists (n : nat) (r : result pyval) (w' : World),
    (k <= n)%nat
    /\ (forall fuel, (n - k < fuel)%nat -> run fuel (test k) = Some (r, w'))
    /\ fetches w' = (fetches w + n)%nat
    /\ ((1 <= n)%nat -> (Z.of_nat n - 1) * d < timeout_ms).
Proof.
  assert (Hcounts : forall k, fetches (test k) = (fetches w + k)%nat).
  { intros k. apply at_test_counts. }
  assert (Hstop : forall k,
            ((1 <= k)%nat -> (Z.of_nat k - 1) * d < timeout_ms) ->
            before_deadline (time clock w) (time clock (test k)) timeout_ms = false ->
            exists (n : nat) (r : result pyval) (w' : World),
              (k <= n)%nat
              /\ (forall fuel, (n - k < fuel)%nat -> run fuel (test k) = Some (r, w'))
              /\ fetches w' = (fetches w + n)%nat
              /\ ((1 <= n)%nat -> (Z.of_nat n - 1) * d < timeout_ms)).
  { intros k Hk Hexp.
    exists k, (Err (TimeoutError (timeout_message repository_name timeout_ms))),
      (read (test k)).
    split; [lia|]. split; [|split; [apply Hcounts|exact Hk]].
    intros [|fuel] Hfuel; [lia|]. now apply wait_loop_expired. }
  induction m as [|m IH]; intros k Hm Hk;
    destruct (before_deadline (time clock w) (time clock (test k)) timeout_ms) eqn:Hlive;
    try (now apply Hstop).
  - pose proof (live_after_turns k Hk Hlive). nia.
  - pose proof (live_after_turns k Hk Hlive) as Hkd.
    set (w1 := fetched (read (test k)) workspace_id integration_id).
    assert (Hone : forall (r : result pyval) (w' : World),
              fetches w' = S (fetches (test k)) ->
              (forall fuel, run (S fuel) (test k) = Some (r, w')) ->
              exists (n : nat) (r : result pyval) (w' : World),
                (k <= n)%nat
                /\ (forall fuel, (n - k < fuel)%nat -> run fuel (test k) = Some (r, w'))
                /\ fetches w' = (fetches w + n)%nat
                /\ ((1 <= n)%nat -> (Z.of_nat n - 1) * d < timeout_ms)).
    { intros r w' Hf Hr. exists (S k), r, w'. split; [lia|]. split; [|split].
      - intros [|fuel] Hfuel; [lia|]. apply Hr.
      - rewrite Hf, Hcounts. lia.
      - intros _. replace (Z.of_nat (S k) - 1) with (Z.of_nat k) by lia. exact Hkd. }
    assert (Hcycle : forall fuel,
              run (S fuel) (test k)
              = match get_all_agent_configuration (bito_api self) workspace_id
                        integration_id (read (test k)) with
                | Err e => Some (Err e, w1)
                | Ok response =>
                    match inspect_response integration_id repository_name response with
                    | Err e => Some (Err e, w1)
                    | Ok (Some matching_item) => Some (Ok matching_item, w1)
                    | Ok None =>
                        if in_float_range interval_ms then
                          if cancels loop (quotient interval_ms 1000) w1
                          then Some (Err CancelledError, test (S k))
                          else run fuel (test (S k))
                        else Some (Err (OverflowError overflow_message), w1)
                    end
                end).
    { intros fuel. unfold run.
      rewrite (wait_loop_cycle _ _ _ _ _ _ _ _ _ _ _ Hlive). cbv zeta.
      now rewrite sleep_then_unfold. }
    destruct (get_all_agent_configuration (bito_api self) workspace_id integration_id
                (read (test k))) as [response|e].
    2:{ apply (Hone (Err e) w1); [reflexivity|exact Hcycle]. }
    destruct (inspect_response integration_id repository_name response)
      as [[found|]|e].
    + apply (Hone (Ok found) w1); [reflexivity|exact Hcycle].
    + destruct (in_float_range interval_ms).
      2:{ apply (Hone (Err (OverflowError overflow_message)) w1);
            [reflexivity|exact Hcycle]. }
      destruct (cancels loop (quotient interval_ms 1000) w1).
      { apply (Hone (Err CancelledError) (test (S k))); [|exact Hcycle].
        rewrite !Hcounts. lia. }
      destruct (IH (S k)) as (n & r & w' & Hn & Hrun & Hf & Hup).
      { lia. }
      { intros _. replace (Z.of_nat (S k) - 1) with (Z.of_nat k) by lia. exact Hkd. }
      exists n, r, w'. split; [lia|]. split; [|split; assumption].
      intros [|fuel] Hfuel; [lia|]. rewrite Hcycle. apply Hrun. lia.
    + apply (Hone (Err e) w1); [reflexivity|exact Hcycle].
Qed.

(** A repository that never pauses, sleeps that are never cancelled: the
    loop goes from turn to turn until the test fails. *)
Hypothesis interval_in_range : in_float_range interval_ms = true.
Hypothesis starved : never_paused self workspace_id integration_id repository_name.
Hypothesis calm : never_cancelled loop.

Lemma starved_turn (fuel k : nat) :
  before_deadline (time clock w) (time clock (test k)) timeout_ms = true ->
  run (S fuel) (test k) = run fuel (test (S k)).
Proof.
  intros Hlive.
  destruct (starved (read (test k))) as (response & item & rest & Hget & Hsel & Hpend).
  unfold run. rewrite (wait_loop_cycle _ _ _ _ _ _ _ _ _ _ _ Hlive). cbv zeta.
  rewrite Hget, (inspect_response_pending _ _ _ _ _ Hsel Hpend).
  now rewrite sleep_then_unfold, interval_in_range, calm.
Qed.

Lemma wait_loop_starved (m : nat) :
  forall k : nat,
  timeout_ms <= Z.of_nat k + Z.of_nat m ->
  ((1 <= k)%nat -> (Z.of_nat k - 1) * d < timeout_ms) ->
  exists n : nat,
    (k <= n)%nat
    /\ (forall fuel, (n - k < fuel)%nat ->
          run fuel (test k)
          = Some (Err (TimeoutError (timeout_message repository_name timeout_ms)),
                  read (test n)))
    /\ before_deadline (time clock w) (time clock (test n)) timeout_ms = false
    /\ (forall j, (j < n)%nat ->
          before_deadline (time clock w) (time clock (test j)) timeout_ms = true
          \/ (j < k)%nat)
    /\ ((1 <= n)%nat -> (Z.of_nat n - 1) * d < timeout_ms).
Proof.
  assert (Hstop : forall k,
            ((1 <= k)%nat -> (Z.of_nat k - 1) * d < timeout_ms) ->
            before_deadline (time clock w) (time clock (test k)) timeout_ms = false ->
            exists n : nat,
              (k <= n)%nat
              /\ (forall fuel, (n - k < fuel)%nat ->
                    run fuel (test k)
                    = Some (Err (TimeoutError (timeout_message repository_name timeout_ms)),
                            read (test n)))
              /\ before_deadline (time clock w) (time clock (test n)) timeout_ms = false
              /\ (forall j, (j < n)%nat ->
                    before_deadline (time clock w) (time clock (test j)) timeout_ms = true
                    \/ (j < k)%nat)
              /\ ((1 <= n)%nat -> (Z.of_nat n - 1) * d < timeout_ms)).
  { intros k Hk Hexp. exists k. split; [lia|].
    split; [|split; [assumption|split; [|assumption]]].
    - intros [|fuel] Hfuel; [lia|]. now apply wait_loop_expired.
    - intros j Hj. now right. }
  induction m as [|m IH]; intros k Hm Hk;
    destruct (before_deadline (time clock w) (time clock (test k)) timeout_ms) eqn:Hlive;
    try (now apply Hstop).
  - pose proof (live_after_turns k Hk Hlive). nia.
  - pose proof (live_after_turns k Hk Hlive) as Hkd.
    destruct (IH (S k)) as (n & Hn & Hrun & Hend & Hbefore & Hup).
    { lia. }
    { intros _. replace (Z.of_nat (S k) - 1) with (Z.of_nat k) by lia. exact Hkd. }
    exists n. split; [lia|]. split; [|split; [assumption|split; [|assumption]]].
    + intros [|fuel] Hfuel; [lia|]. rewrite (starved_turn _ _ Hlive). apply Hrun. lia.
    + intros j Hj. destruct (Hbefore j Hj) as [H|H]; [now left|].
      destruct (Nat.eq_dec j k) as [->|]; [now left|right; lia].
Qed.

End Paced.




(** ** The message of the timeout *)

Lemma string_app_assoc (a b c : string) : (a +:+ b) +:+ c = a +:+ b +:+ c.
Proof.
  induction a as [|ch a IH]; [reflexivity|].
  change (String ch ((a +:+ b) +:+ c) = String ch (a +:+ b +:+ c)). now rewrite IH.
Qed.

Lemma next_or_none_error (test : pyval -> result bool) (l : list pyval) (e : exn) :
  next_or_none test l = Err e -> exists x, test x = Err e.
Proof.
  induction l as [|x l IH]; simpl; [discriminate|].
  destruct (test x) as [[]|e'] eqn:E.
  - discriminate.
  - exact IH.
  - intros [= <-]. now exists x.
Qed.

Lemma get_error (v : pyval) (key : string) (dflt : pyval) (e : exn) :
  get v key dflt = Err e -> is_timeout_error e = false.
Proof. destruct v; simpl; intros [= <-]; reflexivity. Qed.

Lemma getitem_error (v : pyval) (key : string) (e : exn) :
  getitem v key = Err e -> is_timeout_error e = false.
Proof.
  destruct v; simpl; try (intros [= <-]; reflexivity).
  destruct (d !! key); intros [= <-]; reflexivity.
Qed.

Lemma iter_error (v : pyval) (e : exn) :
  iter v = Err e -> is_timeout_error e = false.
Proof. destruct v; simpl; intros [= <-]; reflexivity. Qed.

(** The inspection of a response raises no [TimeoutError]. *)
Lemma inspect_response_error (integration_id : Z) (repository_name : string)
    (response : pyval) (e : exn) :
  inspect_response integration_id repository_name response = Err e ->
  is_timeout_error e = false.
Proof.
  unfold inspect_response. run_bind.
  destruct (get response "configuration" (PList [])) as [config_list|e0] eqn:E0;
    [|intros [= <-]; eapply get_error, E0].
  destruct (iter config_list) as [configs|e1] eqn:E1;
    [|intros [= <-]; eapply iter_error, E1].
  destruct (next_or_none _ configs) as [config|e2] eqn:E2.
  2:{ intros [= <-]. apply next_or_none_error in E2 as [x Hx].
      run_bind. destruct (get x "integrationId" PNone) eqn:E; [discriminate|].
      injection Hx as <-. eapply get_error, E. }
  destruct (if negb (truthy config) then _ else _) as [[]|e3] eqn:E3.
  - intros [= <-]. reflexivity.
  - destruct (getitem config "items") as [items|e4] eqn:E4;
      [|intros [= <-]; eapply getitem_error, E4].
    destruct (iter items) as [entries|e5] eqn:E5;
      [|intros [= <-]; eapply iter_error, E5].
    destruct (next_or_none _ entries) as [matching_item|e6] eqn:E6.
    2:{ intros [= <-]. apply next_or_none_error in E6 as [x Hx].
        run_bind. destruct (get x "name" PNone) eqn:E; [discriminate|].
        injection Hx as <-. eapply get_error, E. }
    destruct (negb (truthy matching_item)); [intros [= <-]; reflexivity|].
    destruct (getitem matching_item "status") as [status|e7] eqn:E7;
      [|intros [= <-]; eapply getitem_error, E7].
    destruct (eq_str status "PAUSED"); discriminate.
  - intros [= <-]. destruct (negb (truthy config)); [discriminate|].
    destruct (get config "items" PNone) eqn:E; [discriminate|].
    injection E3 as <-. eapply get_error, E.
Qed.

Lemma truediv_error (a b : Z) (e : exn) :
  truediv a b = Err e -> is_timeout_error e = false.
Proof.
  unfold truediv. destruct (b =? 0); [intros [= <-]; reflexivity|].
  destruct (is_infinite (quotient a b)); [intros [= <-]; reflexivity|discriminate].
Qed.

(** Whatever the loop raises as a [TimeoutError] is the method's own, raised
    at a test of the deadline that failed. *)
Lemma wait_loop_timeout_error
    (self : IntegrationUtils.t) (clock : Clock) (loop : EventLoop)
    (workspace_id integration_id : Z) (repository_name : string)
    (timeout_ms interval_ms : Z) (start_time : spec_float) :
  api_raises_no_timeout_error self workspace_id integration_id ->
  forall (fuel : nat) (w w' : World) (msg : string),
  wait_loop fuel self clock loop workspace_id integration_id repository_name
    timeout_ms interval_ms start_time w = Some (Err (TimeoutError msg), w') ->
  msg = timeout_message repository_name timeout_ms.
Proof.
  intros Hapi. induction fuel as [|fuel IH]; intros w w' msg; simpl; [discriminate|].
  destruct (before_deadline start_time (time clock w) timeout_ms) eqn:Hlive.
  - destruct (get_all_agent_configuration (bito_api self) workspace_id integration_id
                (read w)) as [response|e] eqn:Hget.
    + destruct (inspect_response integration_id repository_name response)
        as [[matching_item|]|e] eqn:Hins.
      * discriminate.
      * unfold sleep_then.
        destruct (truediv interval_ms 1000) as [delay|e] eqn:Hdiv.
        -- unfold asyncio_sleep. destruct (cancels loop delay _).
           ++ discriminate.
           ++ apply IH.
        -- intros [= -> _]. apply truediv_error in Hdiv. discriminate.
      * intros [= -> _]. apply inspect_response_error in Hins. discriminate.
    + intros [= -> _]. apply Hapi in Hget. discriminate.
  - now intros [= <- _].
Qed.

Lemma string_app_nil_r (a : string) : a +:+ "" = a.
Proof.
  induction a as [|ch a IH]; [reflexivity|].
  change (String ch (a +:+ "") = String ch a). now rewrite IH.
Qed.

Lemma prefix_app (part after : string) : String.prefix part (part +:+ after) = true.
Proof.
  induction part as [|ch part IH]; [now destruct after|].
  change (String.prefix (String ch part) (String ch (part +:+ after)) = true).
  simpl. now destruct (Ascii.ascii_dec ch ch).
Qed.

Lemma occursb_unfold (part s : string) :
  occursb part s =
  String.prefix part s ||
  match s with
  | EmptyString => false
  | String _ s' => occursb part s'
  end.
Proof. destruct s; reflexivity. Qed.

(** [occursb] misses no occurrence. *)
Lemma includes_occursb (s part : string) : includes s part -> occursb part s = true.
Proof.
  intros (before & after & ->). induction before as [|ch before IH].
  - change ("" +:+ part +:+ after) with (part +:+ after).
    rewrite occursb_unfold, prefix_app. reflexivity.
  - change (String ch before +:+ part +:+ after)
      with (String ch (before +:+ part +:+ after)).
    rewrite occursb_unfold, IH. apply orb_true_r.
Qed.

(** C6, as the code has it. Whenever a call ends with the method's
    [TimeoutError], the message names the repository and the status
    "PAUSED" and gives the timeout in whole seconds, rounded down
    ([timeout_ms // 1000] followed by "s"): the figure is the allotted
    timeout exactly when that is a whole number of seconds. *)
Theorem timeout_error_message_contents
    (self : IntegrationUtils.t) (clock : Clock) (loop : EventLoop)
    (workspace_id integration_id : Z) (repository_name : string)
    (timeout_ms interval_ms : Z) (fuel : nat) (w w' : World) (msg : string) :
  api_raises_no_timeout_error self workspace_id integration_id ->
  wait_for_repo_status_paused fuel self clock loop workspace_id integration_id
    repository_name timeout_ms interval_ms w = Some (Err (TimeoutError msg), w') ->
  msg = timeout_message repository_name timeout_ms
  /\ includes msg repository_name
  /\ includes msg "PAUSED"
  /\ includes msg (str_of_int (timeout_ms / 1000) +:+ "s")
  /\ 1000 * (timeout_ms / 1000) <= timeout_ms < 1000 * (timeout_ms / 1000) + 1000
  /\ (1000 * (timeout_ms / 1000) = timeout_ms <-> timeout_ms mod 1000 = 0).
Proof.
  intros Hapi Hrun. unfold wait_for_repo_status_paused, time_time in Hrun.
  destruct (truediv timeout_ms 1000) as [secs|e] eqn:Hdiv.
  2:{ injection Hrun as -> _. apply truediv_error in Hdiv. discriminate. }
  apply (wait_loop_timeout_error _ _ _ _ _ _ _ _ _ Hapi) in Hrun as ->.
  split; [reflexivity|]. unfold timeout_message. repeat split.
  - exists "⏱️ Timeout: Repo '",
      ("' status did not become 'PAUSED' within "
         +:+ str_of_int (timeout_ms / 1000) +:+ "s").
    reflexivity.
  - exists ("⏱️ Timeout: Repo '" +:+ repository_name +:+ "' status did not become '"),
      ("' within " +:+ str_of_int (timeout_ms / 1000) +:+ "s").
    now rewrite !string_app_assoc.
  - exists ("⏱️ Timeout: Repo '" +:+ repository_name
              +:+ "' status did not become 'PAUSED' within "), "".
    now rewrite !string_app_assoc, string_app_nil_r.
  - pose proof (Z.mul_div_le timeout_ms 1000). lia.
  - pose proof (Z.mod_pos_bound timeout_ms 1000).
    pose proof (Z.div_mod timeout_ms 1000). lia.
  - pose proof (Z.div_mod timeout_ms 1000). lia.
  - pose proof (Z.div_mod timeout_ms 1000). lia.
Qed.

Lemma timeout_error_message_contents_witness :
  let msg := timeout_message "org/repo" 2000 in
  msg = timeout_message "org/repo" 2000
  /\ includes msg "org/repo"
  /\ includes msg "PAUSED"
  /\ includes msg (str_of_int (2000 / 1000) +:+ "s")
  /\ 1000 * (2000 / 1000) <= 2000 < 1000 * (2000 / 1000) + 1000
  /\ (1000 * (2000 / 1000) = 2000 <-> 2000 mod 1000 = 0).
Proof.
  apply (timeout_error_message_contents
           (Scenario.steady (Ok Scenario.discovered)) Scenario.weekday Scenario.punctual
           123 456 "org/repo" 2000 1000 3 Scenario.dawn
           (read (at_test 2 123 456 1000 Scenario.dawn))
           (timeout_message "org/repo" 2000)).
  - intros w e H. discriminate H.
  - vm_compute. reflexivity.
Defined.

(** C6 as stated fails: the message does not carry the timeout argument. A
    call allotted 1500 ms reports "within 1s", the very message of a call
    allotted 1000 ms; neither "1500" nor "1.5" occurs in it. *)
Lemma timeout_message_rounds_down :
  let self := Scenario.steady (Ok Scenario.discovered) in
  let msg := "⏱️ Timeout: Repo 'org/repo' status did not become 'PAUSED' within 1s" in
  (exists w' : World,
     wait_for_repo_status_paused 3 self Scenario.weekday Scenario.punctual
       123 456 "org/repo" 1500 1000 Scenario.dawn = Some (Err (TimeoutError msg), w'))
  /\ (exists w' : World,
       wait_for_repo_status_paused 3 self Scenario.weekday Scenario.punctual
         123 456 "org/repo" 1000 1000 Scenario.dawn = Some (Err (TimeoutError msg), w'))
  /\ ~ includes msg "1500"
  /\ ~ includes msg "1.5".
Proof.
  split; [|split; [|split]].
  - eexists. vm_compute. reflexivity.
  - eexists. vm_compute. reflexivity.
  - intros H. apply includes_occursb in H. vm_compute in H. discriminate.
  - intros H. apply includes_occursb in H. vm_compute in H. discriminate.
Qed.

(** ** Two calls against collaborators that behave alike *)

Section TwoCalls.

Variables (self1 self2 : IntegrationUtils.t) (clock1 clock2 : Clock).
Variables (loop1 loop2 : EventLoop).
Variables (workspace_id integration_id : Z) (repository_name : string).
Variables (timeout_ms interval_ms : Z).
Variables (w1 w2 : World).

Let test1 (j : nat) : World := at_test j workspace_id integration_id interval_ms w1.
Let test2 (j : nat) : World := at_test j workspace_id integration_id interval_ms w2.

Hypothesis same_start : time clock1 w1 = time clock2 w2.
Hypothesis same_readings : forall j, time clock1 (test1 j) = time clock2 (test2 j).
Hypothesis same_answers : forall j,
  get_all_agent_configuration (bito_api self1) workspace_id integration_id (read (test1 j))
  = get_all_agent_configuration (bito_api self2) workspace_id integration_id
      (read (test2 j)).
Hypothesis same_sleeps : forall j,
  cancels loop1 (quotient interval_ms 1000)
    (fetched (read (test1 j)) workspace_id integration_id)
  = cancels loop2 (quotient interval_ms 1000)
      (fetched (read (test2 j)) workspace_id integration_id).

(** The two loops stay in step, turn after turn. *)
Lemma wait_loop_in_step (fuel : nat) :
  forall j : nat,
  option_map fst
    (wait_loop fuel self1 clock1 loop1 workspace_id integration_id repository_name
       timeout_ms interval_ms (time clock1 w1) (test1 j))
  = option_map fst
      (wait_loop fuel self2 clock2 loop2 workspace_id integration_id repository_name
         timeout_ms interval_ms (time clock2 w2) (test2 j)).
Proof.
  induction fuel as [|fuel IH]; intros j; [reflexivity|].
  cbn [wait_loop time_time await_get_all_agent_configuration].
  assert (Hb : before_deadline (time clock1 w1) (time clock1 (test1 j)) timeout_ms
               = before_deadline (time clock2 w2) (time clock2 (test2 j)) timeout_ms)
    by now rewrite same_start, (same_readings j).
  rewrite Hb.
  destruct (before_deadline (time clock2 w2) (time clock2 (test2 j)) timeout_ms);
    [|reflexivity].
  rewrite (same_answers j).
  destruct (get_all_agent_configuration (bito_api self2) workspace_id integration_id
              (read (test2 j))) as [response|e]; [|reflexivity].
  destruct (inspect_response integration_id repository_name response)
    as [[matching_item|]|e]; try reflexivity.
  rewrite !sleep_then_unfold, (same_sleeps j).
  destruct (in_float_range interval_ms); [|reflexivity].
  destruct (cancels loop2 _ _); [reflexivity|].
  apply (IH (S j)).
Qed.

End TwoCalls.

(** C8, as the code has it. Two calls with the same arguments, made against
    collaborators that behave alike along the two calls (the clock reads
    the same at line 97 and at every test of the deadline, every fetch
    gives the same answer, every sleep ends the same way), have the same
    outcome: both run out of fuel, or both return the same item, or both
    raise the same exception with the same message. The histories the calls
    start from may differ. *)
Theorem wait_is_deterministic
    (self1 self2 : IntegrationUtils.t) (clock1 clock2 : Clock) (loop1 loop2 : EventLoop)
    (workspace_id integration_id : Z) (repository_name : string)
    (timeout_ms interval_ms : Z) (w1 w2 : World) :
  time clock1 w1 = time clock2 w2 ->
  (forall j,
     time clock1 (at_test j workspace_id integration_id interval_ms w1)
     = time clock2 (at_test j workspace_id integration_id interval_ms w2)) ->
  (forall j,
     get_all_agent_configuration (bito_api self1) workspace_id integration_id
       (read (at_test j workspace_id integration_id interval_ms w1))
     = get_all_agent_configuration (bito_api self2) workspace_id integration_id
         (read (at_test j workspace_id integration_id interval_ms w2))) ->
  (forall j,
     cancels loop1 (quotient interval_ms 1000)
       (fetched (read (at_test j workspace_id integration_id interval_ms w1))
          workspace_id integration_id)
     = cancels loop2 (quotient interval_ms 1000)
         (fetched (read (at_test j workspace_id integration_id interval_ms w2))
            workspace_id integration_id)) ->
  forall fuel : nat,
    option_map fst
      (wait_for_repo_status_paused fuel self1 clock1 loop1 workspace_id integration_id
         repository_name timeout_ms interval_ms w1)
    = option_map fst
        (wait_for_repo_status_paused fuel self2 clock2 loop2 workspace_id integration_id
           repository_name timeout_ms interval_ms w2).
Proof.
  intros Hstart Hreadings Hanswers Hsleeps fuel.
  unfold wait_for_repo_status_paused, time_time.
  destruct (truediv timeout_ms 1000) as [secs|e]; [|reflexivity].
  apply (wait_loop_in_step self1 self2 clock1 clock2 loop1 loop2 workspace_id
           integration_id repository_name timeout_ms interval_ms w1 w2
           Hstart Hreadings Hanswers Hsleeps fuel 0%nat).
Qed.

Lemma wait_is_deterministic_witness :
  let morning :=
    wait_for_repo_status_paused 10 (Scenario.scripted 0)
      (Scenario.regular 1700000000000 250 1001) Scenario.punctual
      123 456 "org/repo" 5000 1000 Scenario.dawn in
  let midday :=
    wait_for_repo_status_paused 10 (Scenario.scripted 1)
      (Scenario.regular 1699999998749 250 1001) (Scenario.interrupting 1)
      123 456 "org/repo" 5000 1000 Scenario.noon in
  option_map fst morning = option_map fst midday
  /\ option_map fst morning = Some (Ok (PDict (Scenario.repo_item "org/repo" "PAUSED")))
  /\ option_map (fun r => fetches (snd r)) morning = Some 3%nat.
Proof.
  split; [|split; vm_compute; reflexivity].
  apply (wait_is_deterministic
           (Scenario.scripted 0) (Scenario.scripted 1)
           (Scenario.regular 1700000000000 250 1001)
           (Scenario.regular 1699999998749 250 1001)
           Scenario.punctual (Scenario.interrupting 1)
           123 456 "org/repo" 5000 1000 Scenario.dawn Scenario.noon).
  - reflexivity.
  - intros j. cbn [Scenario.regular time].
    destruct (at_test_counts 123 456 1000 j Scenario.dawn) as (-> & -> & _).
    destruct (at_test_counts 123 456 1000 j Scenario.noon) as (-> & -> & _).
    f_equal. change (fetches Scenario.dawn) with 0%nat.
    change (sleeps Scenario.dawn) with 0%nat.
    change (fetches Scenario.noon) with 1%nat.
    change (sleeps Scenario.noon) with 1%nat. lia.
  - intros j. cbn [Scenario.scripted bito_api get_all_agent_configuration].
    f_equal.
    destruct (at_test_counts 123 456 1000 j Scenario.dawn) as (Hd & _).
    destruct (at_test_counts 123 456 1000 j Scenario.noon) as (Hn & _).
    change (fetches (read (at_test j 123 456 1000 Scenario.dawn)))
      with (fetches (at_test j 123 456 1000 Scenario.dawn)).
    change (fetches (read (at_test j 123 456 1000 Scenario.noon)))
      with (fetches (at_test j 123 456 1000 Scenario.noon)).
    rewrite Hd, Hn. change (fetches Scenario.dawn) with 0%nat.
    change (fetches Scenario.noon) with 1%nat. lia.
  - intros j. cbn [Scenario.punctual Scenario.interrupting cancels].
    change (sleeps (fetched (read (at_test j 123 456 1000 Scenario.noon)) 123 456))
      with (sleeps (at_test j 123 456 1000 Scenario.noon)).
    destruct (at_test_counts 123 456 1000 j Scenario.noon) as (_ & -> & _).
    change (sleeps Scenario.noon) with 1%nat. symmetry. apply Nat.eqb_neq. lia.
Defined.

(** C8 as stated fails: the same arguments and the same fetch collaborator,
    answering with the same sequence of snapshots (not paused twice, then
    paused), do not decide the outcome. With a timeout of 250 ms and an
    interval of 100 ms, the call whose fetches answer at once returns the
    paused item at its third fetch; the call whose fetches take 30 ms each
    is past the deadline after two turns and raises [TimeoutError]. Both
    begin with the clock at the same reading. *)
Lemma slower_fetches_change_the_outcome :
  let self := Scenario.scripted 0 in
  let quick := Scenario.regular 1700000000000 0 100 in
  let slow := Scenario.regular 1700000000000 30 100 in
  (forall u : World,
     get_all_agent_configuration (bito_api self) 123 456 u = Scenario.schedule (fetches u))
  /\ time quick Scenario.dawn = time slow Scenario.dawn
  /\ option_map fst
       (wait_for_repo_status_paused 10 self quick Scenario.punctual
          123 456 "org/repo" 250 100 Scenario.dawn)
     = Some (Ok (PDict (Scenario.repo_item "org/repo" "PAUSED")))
  /\ option_map fst
       (wait_for_repo_status_paused 10 self slow Scenario.punctual
          123 456 "org/repo" 250 100 Scenario.dawn)
     = Some (Err (TimeoutError (timeout_message "org/repo" 250))).
Proof.
  split; [|split; [|split]].
  - intros u. cbn [Scenario.scripted bito_api get_all_agent_configuration].
    now rewrite Nat.sub_0_r.
  - reflexivity.
  - vm_compute. reflexivity.
  - vm_compute. reflexivity.
Qed.

(** ** The scenarios of the specification *)

(** Scenario A: "DISCOVERED" twice, then "PAUSED"; the item is returned after
    exactly three fetches. *)
Example scenario_a :
  option_map (fun r => (fst r, fetches (snd r), sleeps (snd r)))
    (wait_for_repo_status_paused 50 (Scenario.scripted 0)
       (Scenario.regular 1700000000000 0 100) Scenario.punctual
       123 456 "org/repo" 5000 100 Scenario.dawn)
  = Some (Ok (PDict (Scenario.repo_item "org/repo" "PAUSED")), 3%nat, 2%nat).
Proof. vm_compute. reflexivity. Qed.

(** Scenario B: only another repository is listed; [ValueError] at once. *)
Example scenario_b :
  option_map (fun r => (fst r, fetches (snd r), sleeps (snd r)))
    (wait_for_repo_status_paused 50 (Scenario.steady (Ok Scenario.elsewhere))
       (Scenario.regular 1700000000000 0 100) Scenario.punctual
       123 456 "org/repo" 5000 100 Scenario.dawn)
  = Some (Err (ValueError "❌ Repository 'org/repo' not found in integration items."),
          1%nat, 0%nat).
Proof. vm_compute. reflexivity. Qed.

(** Scenario C: always "DISCOVERED", 300 ms allotted, 100 ms between
    fetches that answer at once. Begun with the clock at 1.0 s the call
    raises [TimeoutError] after three fetches; begun at 1.1 s it makes a
    fourth, since [(1.4 - 1.1) * 1000] is rounded to 299.99999999999983. *)
Example scenario_c :
  option_map (fun r => (fst r, fetches (snd r), sleeps (snd r)))
    (wait_for_repo_status_paused 50 (Scenario.steady (Ok Scenario.discovered))
       (Scenario.regular 1000 0 100) Scenario.punctual
       123 456 "org/repo" 300 100 Scenario.dawn)
  = Some (Err (TimeoutError
                 "⏱️ Timeout: Repo 'org/repo' status did not become 'PAUSED' within 0s"),
          3%nat, 3%nat).
Proof. vm_compute. reflexivity. Qed.

Example scenario_c_a_tenth_later :
  option_map (fun r => (fst r, fetches (snd r), sleeps (snd r)))
    (wait_for_repo_status_paused 50 (Scenario.steady (Ok Scenario.discovered))
       Scenario.tenths Scenario.punctual 123 456 "org/repo" 300 100 Scenario.dawn)
  = Some (Err (TimeoutError
                 "⏱️ Timeout: Repo 'org/repo' status did not become 'PAUSED' within 0s"),
          4%nat, 4%nat).
Proof. vm_compute. reflexivity. Qed.

(** With the default timeout and interval, fetches that answer at once and
    sleeps of exactly one second, a call begun at 1.002 s fetches sixteen
    times: [(16.002 - 1.002) * 1000] is rounded to 14999.999999999998. *)
Example default_wait_fetches_sixteen_times :
  option_map (fun r => (fst r, fetches (snd r), sleeps (snd r)))
    (wait_for_repo_status_paused 50 (Scenario.steady (Ok Scenario.discovered))
       (Scenario.regular 1002 0 1000) Scenario.punctual
       123 456 "org/repo" 15000 1000 Scenario.dawn)
  = Some (Err (TimeoutError
                 "⏱️ Timeout: Repo 'org/repo' status did not become 'PAUSED' within 15s"),
          16%nat, 16%nat).
Proof. vm_compute. reflexivity. Qed.

(** Where the two divisions start to overflow: at a thousand times the
    midpoint between the largest float and 2 ^ 1024. *)
Example float_range_ends :
  in_float_range (1000 * (2 ^ 1024 - 2 ^ 970) - 1) = true
  /\ in_float_range (1000 * (2 ^ 1024 - 2 ^ 970)) = false
  /\ in_float_range (- (1000 * (2 ^ 1024 - 2 ^ 970)) + 1) = true
  /\ in_float_range (- (1000 * (2 ^ 1024 - 2 ^ 970))) = false
  /\ quotient 15000 1000 = S754_finite false 8444249301319680 (-49).
Proof. vm_compute. repeat split. Qed.

(** An interval too large for a float ends the call after its first fetch,
    before any sleep, with [OverflowError]. *)
Example interval_overflow :
  option_map (fun r => (fst r, fetches (snd r), sleeps (snd r)))
    (wait_for_repo_status_paused 50 (Scenario.steady (Ok Scenario.discovered))
       Scenario.weekday Scenario.punctual 123 456 "org/repo" 100 (10 ^ 400) Scenario.dawn)
  = Some (Err (OverflowError overflow_message), 1%nat, 0%nat).
Proof. vm_compute. reflexivity. Qed.

(** ** What a finished inspection tells about the snapshot *)

(** Where a search stops: on the first element that passes the test, or on
    the default when every element fails it. *)
Lemma next_or_none_found (test : pyval -> result bool) (l : list pyval) (x : pyval) :
  next_or_none test l = Ok x ->
  (exists pre post, l = pre ++ x :: post
     /\ Forall (fun y => test y = Ok false) pre /\ test x = Ok true)
  \/ (x = PNone /\ Forall (fun y => test y = Ok false) l).
Proof.
  induction l as [|y l IH]; simpl.
  - intros [= <-]. right. split; [reflexivity|constructor].
  - destruct (test y) as [[]|e] eqn:E; [| |discriminate].
    + intros [= <-]. left. exists [], l. repeat split; [constructor|exact E].
    + intros H. destruct (IH H) as [(pre & post & -> & Hpre & Hx)|[-> Hall]].
      * left. exists (y :: pre), post. repeat split; [now constructor|exact Hx].
      * right. split; [reflexivity|now constructor].
Qed.

Lemma id_test_true (integration_id : Z) (c : pyval) :
  id_test integration_id c = Ok true ->
  exists cfg, c = PDict cfg /\ config_for integration_id cfg = true.
Proof.
  destruct c; try discriminate. unfold id_test. run_bind.
  intros [= H]. now eexists.
Qed.

Lemma name_test_true (repository_name : string) (v : pyval) :
  name_test repository_name v = Ok true ->
  exists item, v = PDict item /\ item !! "name" = Some (PStr repository_name).
Proof.
  destruct v as [| | | | | |item]; try discriminate. unfold name_test. run_bind.
  intros [= H]. exists item. split; [reflexivity|].
  destruct (item !! "name") as [[| | | |t| |]|]; try discriminate.
  simpl in H. now apply String.eqb_eq in H as ->.
Qed.

Lemma id_test_others (integration_id : Z) (l : list pyval) :
  Forall (fun c => id_test integration_id c = Ok false) l ->
  forallb (other_config integration_id) l = true.
Proof.
  induction 1 as [|c l Hc _ IH]; [reflexivity|]. simpl. rewrite IH, andb_true_r.
  destruct c; try discriminate. unfold id_test in Hc. run_bind.
  injection Hc as ->. reflexivity.
Qed.

Lemma name_test_others (repository_name : string) (l : list pyval) :
  Forall (fun c => name_test repository_name c = Ok false) l ->
  forallb (other_item repository_name) l = true.
Proof.
  induction 1 as [|c l Hc _ IH]; [reflexivity|]. simpl. rewrite IH, andb_true_r.
  destruct c; try discriminate. unfold name_test in Hc. run_bind.
  injection Hc as ->. reflexivity.
Qed.

Lemma eq_str_true (v : pyval) (s : string) : eq_str v s = true -> v = PStr s.
Proof.
  destruct v; try discriminate. simpl. now intros ->%String.eqb_eq.
Qed.

(** What iterating the value under "configuration" yields: the blocks of
    the snapshot, or only strings (the characters of a string, the keys of a
    dict). *)
Lemma iter_configuration (top : gmap string pyval) (configs : list pyval) :
  iter (default (PList []) (top !! "configuration")) = Ok configs ->
  configs_of (PDict top) = Some configs
  \/ (Forall (fun c => is_dict c = false) configs
      /\ (configs = [] -> empty_configuration (PDict top) = true)).
Proof.
  unfold configs_of, empty_configuration.
  destruct (top !! "configuration") as [[| | | |s|l|d]|]; simpl; try discriminate.
  - intros [= <-]. right. split.
    + apply Forall_forall. intros c (ch & -> & _)%list_elem_of_fmap. reflexivity.
    + destruct s; [reflexivity|discriminate].
  - intros [= <-]. now left.
  - intros [= <-]. right. split.
    + apply Forall_forall. intros c (kv & -> & _)%list_elem_of_fmap. reflexivity.
    + intros H. apply fmap_nil_inv in H. apply map_to_list_empty_iff in H.
      now apply bool_decide_eq_true.
  - intros [= <-]. now left.
Qed.

Ltac run_bind_in H := unfold mbind, result_bind in H; simpl in H.

(** An inspection that returns an item has selected it, paused. *)
Lemma inspect_response_returns (integration_id : Z) (repository_name : string)
    (response matching_item : pyval) :
  inspect_response integration_id repository_name response = Ok (Some matching_item) ->
  exists item rest,
    matching_item = PDict item
    /\ selects integration_id repository_name response item rest
    /\ item !! "status" = Some (PStr "PAUSED").
Proof.
  intros H. destruct response as [| | | | | |top]; try discriminate H.
  unfold inspect_response in H. run_bind_in H.
  destruct (iter (default (PList []) (top !! "configuration")))
    as [configs|] eqn:Hiter; [|discriminate].
  change (fun c : pyval => _) with (id_test integration_id) in H at 1.
  destruct (next_or_none (id_test integration_id) configs)
    as [config|] eqn:Hconfig; [|discriminate].
  apply next_or_none_found in Hconfig
    as [(pre & post & -> & Hpre & Hcfg)|[-> _]]; [|discriminate].
  apply id_test_true in Hcfg as (cfg & -> & Hcfg).
  destruct (iter_configuration _ _ Hiter) as [Hconfigs|[Hstr _]].
  2:{ apply Forall_app in Hstr as [_ Hstr]. inversion Hstr; discriminate. }
  rewrite (config_for_truthy _ _ Hcfg) in H. simpl in H.
  destruct (cfg !! "items") as [[| | | | |items|]|] eqn:Hitems;
    simpl in H; try discriminate.
  change (fun item : pyval => _) with (name_test repository_name) in H at 1.
  destruct (next_or_none (name_test repository_name) items)
    as [found|] eqn:Hfound; [|discriminate].
  apply next_or_none_found in Hfound
    as [(before & rest & -> & Hbefore & Hitem)|[-> _]]; [|discriminate].
  apply name_test_true in Hitem as (item & -> & Hname).
  rewrite (truthy_with_key _ _ _ Hname) in H. simpl in H.
  destruct (item !! "status") as [status|] eqn:Hstatus; [|discriminate].
  destruct (eq_str status "PAUSED") eqn:Heq; [|discriminate].
  injection H as <-. apply eq_str_true in Heq as ->.
  exists item, rest. split; [reflexivity|]. split; [|exact Hstatus].
  apply (selects_intro _ _ _ _ _ pre cfg post before); auto.
  - now apply id_test_others.
  - now apply name_test_others.
Qed.

(** The shapes on which the inspection raises [ValueError], all of them. *)
Lemma inspect_response_value_error (integration_id : Z) (repository_name : string)
    (response : pyval) (msg : string) :
  inspect_response integration_id repository_name response = Err (ValueError msg) ->
  unusable integration_id repository_name response msg
  \/ (empty_configuration response = true /\ msg = invalid_config_message).
Proof.
  intros H. destruct response as [| | | | | |top]; try discriminate H.
  unfold inspect_response in H. run_bind_in H.
  destruct (iter (default (PList []) (top !! "configuration")))
    as [configs|e] eqn:Hiter.
  2:{ injection H as ->.
      destruct (default (PList []) (top !! "configuration")); discriminate. }
  change (fun c : pyval => _) with (id_test integration_id) in H at 1.
  destruct (next_or_none (id_test integration_id) configs)
    as [config|e] eqn:Hconfig.
  2:{ injection H as ->. apply next_or_none_error in Hconfig as [x Hx].
      unfold id_test in Hx. destruct x; discriminate. }
  apply next_or_none_found in Hconfig
    as [(pre & post & -> & Hpre & Hcfg)|[-> Hall]].
  - apply id_test_true in Hcfg as (cfg & -> & Hcfg).
    destruct (iter_configuration _ _ Hiter) as [Hconfigs|[Hstr _]].
    2:{ apply Forall_app in Hstr as [_ Hstr]. inversion Hstr; discriminate. }
    left. apply id_test_others in Hpre.
    rewrite (config_for_truthy _ _ Hcfg) in H. simpl in H.
    destruct (is_list (default PNone (cfg !! "items"))) eqn:Hl; simpl in H.
    2:{ injection H as <-. now apply (no_items_list _ _ _ pre cfg post). }
    destruct (cfg !! "items") as [[| | | | |items|]|] eqn:Hitems; try discriminate Hl.
    simpl in H.
    change (fun item : pyval => _) with (name_test repository_name) in H at 1.
    destruct (next_or_none (name_test repository_name) items)
      as [found|e] eqn:Hfound.
    2:{ injection H as ->. apply next_or_none_error in Hfound as [x Hx].
        unfold name_test in Hx. destruct x; discriminate. }
    apply next_or_none_found in Hfound
      as [(before & rest & -> & Hbefore & Hitem)|[-> Hnone]].
    + apply name_test_true in Hitem as (item & -> & Hname).
      rewrite (truthy_with_key _ _ _ Hname) in H. simpl in H.
      destruct (item !! "status") as [status|]; [|discriminate].
      destruct (eq_str status "PAUSED"); discriminate.
    + simpl in H. injection H as <-.
      apply (no_such_repository _ _ _ pre cfg post items); auto.
      now apply name_test_others.
  - simpl in H. injection H as <-.
    destruct (iter_configuration _ _ Hiter) as [Hconfigs|[Hstr Hempty]].
    + left. apply (no_config _ _ _ configs); [exact Hconfigs|].
      now apply id_test_others.
    + right. split; [|reflexivity]. apply Hempty.
      destruct configs as [|c configs]; [reflexivity|].
      inversion Hstr as [|? ? Hc _]. inversion Hall as [|? ? Hc' _].
      unfold id_test in Hc'. destruct c; discriminate.
Qed.

Lemma inspect_response_empty_configuration (integration_id : Z)
    (repository_name : string) (response : pyval) :
  empty_configuration response = true ->
  inspect_response integration_id repository_name response
  = Err (ValueError invalid_config_message).
Proof.
  destruct response as [| | | | | |top]; try discriminate.
  unfold empty_configuration, inspect_response. run_bind.
  destruct (top !! "configuration") as [[| | | |s| |d]|]; try discriminate.
  - intros ->%String.eqb_eq. reflexivity.
  - intros ->%bool_decide_eq_true. simpl. rewrite map_to_list_empty. reflexivity.
Qed.

Lemma next_or_none_raises (test : pyval -> result bool)
    (pre : list pyval) (x : pyval) (post : list pyval) (e : exn) :
  Forall (fun y => test y = Ok false) pre ->
  test x = Err e ->
  next_or_none test (pre ++ x :: post) = Err e.
Proof.
  intros Hpre Hx. induction Hpre as [|y pre Hy _ IH]; simpl.
  - now rewrite Hx.
  - now rewrite Hy.
Qed.

Lemma get_not_dict (v : pyval) (key : string) (dflt : pyval) :
  is_dict v = false ->
  get v key dflt
  = Err (AttributeError ("'" +:+ type_name v +:+ "' object has no attribute 'get'")).
Proof. destruct v; try discriminate; reflexivity. Qed.

(** A loop that returns an item does so right after a fetch begun when a
    test of the deadline had passed, whose snapshot selects that item,
    paused. *)
Lemma wait_loop_returns
    (self : IntegrationUtils.t) (clock : Clock) (loop : EventLoop)
    (workspace_id integration_id : Z) (repository_name : string)
    (timeout_ms interval_ms : Z) (start_time : spec_float) (fuel : nat) :
  forall (w w' : World) (matching_item : pyval),
  wait_loop fuel self clock loop workspace_id integration_id repository_name
    timeout_ms interval_ms start_time w = Some (Ok matching_item, w') ->
  exists u response item rest,
    before_deadline start_time (time clock u) timeout_ms = true
    /\ get_all_agent_configuration (bito_api self) workspace_id integration_id (read u)
       = Ok response
    /\ w' = fetched (read u) workspace_id integration_id
    /\ matching_item = PDict item
    /\ selects integration_id repository_name response item rest
    /\ item !! "status" = Some (PStr "PAUSED").
Proof.
  induction fuel as [|fuel IH]; intros w w' m; simpl; [discriminate|].
  destruct (before_deadline start_time (time clock w) timeout_ms) eqn:Hlive;
    [|discriminate].
  destruct (get_all_agent_configuration (bito_api self) workspace_id integration_id
              (read w)) as [response|e] eqn:Hget; [|discriminate].
  destruct (inspect_response integration_id repository_name response)
    as [[found|]|e] eqn:Hins; [| |discriminate].
  - intros [= <- <-].
    destruct (inspect_response_returns _ _ _ _ Hins) as (item & rest & -> & Hsel & Hst).
    exists w, response, item, rest. repeat split; auto.
  - unfold sleep_then. destruct (truediv interval_ms 1000) as [delay|e]; [|discriminate].
    unfold asyncio_sleep. destruct (cancels loop delay _); [discriminate|].
    apply IH.
Qed.

(** X1. Whatever a call returns is a dict with the repository name and the
    status "PAUSED": it is the entry that the snapshot of the last fetch
    selects (the first entry with the name in the items list of the first
    block for the integration), that fetch was begun at a test of the
    deadline that passed, and the call ended as soon as it answered. *)
Theorem returned_item_is_selected_and_paused
    (self : IntegrationUtils.t) (clock : Clock) (loop : EventLoop)
    (workspace_id integration_id : Z) (repository_name : string)
    (timeout_ms interval_ms : Z) (fuel : nat) (w w' : World) (matching_item : pyval) :
  wait_for_repo_status_paused fuel self clock loop workspace_id integration_id
    repository_name timeout_ms interval_ms w = Some (Ok matching_item, w') ->
  exists u response item rest,
    before_deadline (time clock w) (time clock u) timeout_ms = true
    /\ get_all_agent_configuration (bito_api self) workspace_id integration_id (read u)
       = Ok response
    /\ w' = fetched (read u) workspace_id integration_id
    /\ matching_item = PDict item
    /\ item !! "name" = Some (PStr repository_name)
    /\ item !! "status" = Some (PStr "PAUSED")
    /\ selects integration_id repository_name response item rest.
Proof.
  unfold wait_for_repo_status_paused, time_time.
  destruct (truediv timeout_ms 1000) as [secs|e]; [|discriminate].
  intros H. apply wait_loop_returns in H
    as (u & response & item & rest & Hlive & Hget & -> & -> & Hsel & Hst).
  exists u, response, item, rest. repeat split; auto.
  now destruct Hsel.
Qed.

Lemma returned_item_is_selected_and_paused_witness :
  let self := Scenario.scripted 0 in
  let clock := Scenario.weekday in
  let w := Scenario.dawn in
  exists u response item rest,
    before_deadline (time clock w) (time clock u) 5000 = true
    /\ get_all_agent_configuration (bito_api self) 123 456 (read u) = Ok response
    /\ fetched (read (at_test 2 123 456 1000 w)) 123 456 = fetched (read u) 123 456
    /\ PDict (Scenario.repo_item "org/repo" "PAUSED") = PDict item
    /\ item !! "name" = Some (PStr "org/repo")
    /\ item !! "status" = Some (PStr "PAUSED")
    /\ selects 456 "org/repo" response item rest.
Proof.
  apply (returned_item_is_selected_and_paused
           (Scenario.scripted 0) Scenario.weekday Scenario.punctual
           123 456 "org/repo" 5000 1000 50 Scenario.dawn).
  vm_compute. reflexivity.
Defined.

(** X2. The inspection of a response raises [ValueError] exactly on the
    shapes of [unusable] (no block for the integration, a block without an
    items list, an items list without the repository), each with its own
    message, and on a snapshot whose "configuration" is an empty string or an
    empty dict, which it takes for an empty list of blocks. Every other
    ill-typed response raises something else. *)
Theorem value_error_exactly_when_unusable
    (integration_id : Z) (repository_name : string) (response : pyval) (msg : string) :
  inspect_response integration_id repository_name response = Err (ValueError msg)
  <-> unusable integration_id repository_name response msg
      \/ (empty_configuration response = true /\ msg = invalid_config_message).
Proof.
  split.
  - apply inspect_response_value_error.
  - intros [Hbad|[Hempty ->]].
    + now apply inspect_response_unusable.
    + now apply inspect_response_empty_configuration.
Qed.

(** X3. A poll cycle whose snapshot lists, before any block for the
    integration, an entry that is not a dict (a null, a number, a string, a
    list) ends with [AttributeError] for that entry's type, not with
    [ValueError], whatever follows the entry; no sleep is made. *)
Theorem non_dict_block_raises_attribute_error
    (self : IntegrationUtils.t) (clock : Clock) (loop : EventLoop)
    (workspace_id integration_id : Z) (repository_name : string)
    (timeout_ms interval_ms : Z)
    (fuel : nat) (start_time : spec_float) (w : World)
    (response : pyval) (pre : list pyval) (x : pyval) (post : list pyval) :
  before_deadline start_time (time clock w) timeout_ms = true ->
  get_all_agent_configuration (bito_api self) workspace_id integration_id (read w)
    = Ok response ->
  configs_of response = Some (pre ++ x :: post) ->
  forallb (other_config integration_id) pre = true ->
  is_dict x = false ->
  wait_loop (S fuel) self clock loop workspace_id integration_id repository_name
    timeout_ms interval_ms start_time w
  = Some (Err (AttributeError ("'" +:+ type_name x +:+ "' object has no attribute 'get'")),
          fetched (read w) workspace_id integration_id).
Proof.
  intros Hlive Hget Hc Hpre Hx.
  rewrite (wait_loop_cycle _ _ _ _ _ _ _ _ _ _ _ Hlive). cbv zeta. rewrite Hget.
  destruct (configs_of_get _ _ Hc) as (config_list & Hcl & Hiter).
  unfold inspect_response. rewrite Hcl. run_bind. rewrite Hiter.
  change (fun c : pyval => _) with (id_test integration_id) at 1.
  rewrite (next_or_none_raises (id_test integration_id) pre x post
             (AttributeError ("'" +:+ type_name x +:+ "' object has no attribute 'get'"))).
  - reflexivity.
  - now apply other_config_test.
  - unfold id_test. now rewrite (get_not_dict _ _ _ Hx).
Qed.

Lemma non_dict_block_raises_attribute_error_witness :
  let response :=
    PDict {["configuration" := PList [PNone; PDict {["integrationId" := PInt 456]}]]} in
  let w := read Scenario.dawn in
  wait_loop 1 (Scenario.steady (Ok response)) Scenario.weekday Scenario.punctual
    123 456 "org/repo" 15000 1000 (time Scenario.weekday Scenario.dawn) w
  = Some (Err (AttributeError ("'" +:+ type_name PNone +:+ "' object has no attribute 'get'")),
          fetched (read w) 123 456).
Proof.
  apply (non_dict_block_raises_attribute_error
           (Scenario.steady
              (Ok (PDict {["configuration" :=
                             PList [PNone; PDict {["integrationId" := PInt 456]}]]})))
           Scenario.weekday Scenario.punctual 123 456 "org/repo" 15000 1000 0
           (time Scenario.weekday Scenario.dawn) (read Scenario.dawn)
           (PDict {["configuration" := PList [PNone; PDict {["integrationId" := PInt 456]}]]})
           [] PNone [PDict {["integrationId" := PInt 456]}]).
  - vm_compute. reflexivity.
  - reflexivity.
  - reflexivity.
  - reflexivity.
  - reflexivity.
Defined.

(** X4. A poll cycle whose snapshot has, in the items list of the selected
    block and before any entry with the repository name, an entry that is
    not a dict ends with [AttributeError] for that entry's type; an entry of
    that kind placed after the named one is never looked at (C7). *)
Theorem non_dict_item_raises_attribute_error
    (self : IntegrationUtils.t) (clock : Clock) (loop : EventLoop)
    (workspace_id integration_id : Z) (repository_name : string)
    (timeout_ms interval_ms : Z)
    (fuel : nat) (start_time : spec_float) (w : World)
    (response : pyval)
    (pre : list pyval) (cfg : gmap string pyval) (post : list pyval)
    (before : list pyval) (x : pyval) (rest : list pyval) :
  before_deadline start_time (time clock w) timeout_ms = true ->
  get_all_agent_configuration (bito_api self) workspace_id integration_id (read w)
    = Ok response ->
  configs_of response = Some (pre ++ PDict cfg :: post) ->
  forallb (other_config integration_id) pre = true ->
  config_for integration_id cfg = true ->
  cfg !! "items" = Some (PList (before ++ x :: rest)) ->
  forallb (other_item repository_name) before = true ->
  is_dict x = false ->
  wait_loop (S fuel) self clock loop workspace_id integration_id repository_name
    timeout_ms interval_ms start_time w
  = Some (Err (AttributeError ("'" +:+ type_name x +:+ "' object has no attribute 'get'")),
          fetched (read w) workspace_id integration_id).
Proof.
  intros Hlive Hget Hc Hpre Hcfg Hitems Hbefore Hx.
  rewrite (wait_loop_cycle _ _ _ _ _ _ _ _ _ _ _ Hlive). cbv zeta. rewrite Hget.
  rewrite (inspect_response_config _ _ _ _ _ _ Hc Hpre Hcfg).
  rewrite Hitems. run_bind. rewrite Hitems. cbn [iter].
  rewrite (next_or_none_raises (name_test repository_name) before x rest
             (AttributeError ("'" +:+ type_name x +:+ "' object has no attribute 'get'"))).
  - reflexivity.
  - now apply other_item_test.
  - unfold name_test. now rewrite (get_not_dict _ _ _ Hx).
Qed.

Lemma non_dict_item_raises_attribute_error_witness :
  let response :=
    Scenario.snapshot 456
      (PList [PStr "org/repo"; PDict (Scenario.repo_item "org/repo" "PAUSED")]) in
  let w := read Scenario.dawn in
  wait_loop 1 (Scenario.steady (Ok response)) Scenario.weekday Scenario.punctual
    123 456 "org/repo" 15000 1000 (time Scenario.weekday Scenario.dawn) w
  = Some (Err (AttributeError
                 ("'" +:+ type_name (PStr "org/repo") +:+ "' object has no attribute 'get'")),
          fetched (read w) 123 456).
Proof.
  apply (non_dict_item_raises_attribute_error
           (Scenario.steady
              (Ok (Scenario.snapshot 456
                     (PList [PStr "org/repo";
                             PDict (Scenario.repo_item "org/repo" "PAUSED")]))))
           Scenario.weekday Scenario.punctual 123 456 "org/repo" 15000 1000 0
           (time Scenario.weekday Scenario.dawn) (read Scenario.dawn)
           (Scenario.snapshot 456
              (PList [PStr "org/repo"; PDict (Scenario.repo_item "org/repo" "PAUSED")]))
           []
           (<["integrationId" := PInt 456]>
              {["items" := PList [PStr "org/repo";
                                  PDict (Scenario.repo_item "org/repo" "PAUSED")]]})
           [] [] (PStr "org/repo") [PDict (Scenario.repo_item "org/repo" "PAUSED")]).
  - vm_compute. reflexivity.
  - reflexivity.
  - reflexivity.
  - reflexivity.
  - reflexivity.
  - reflexivity.
  - reflexivity.
  - reflexivity.
Defined.

(** ** Any collaborator: the end and the trace of a call *)

(** X5. Whatever the API answers and whether or not a sleep is cancelled, a
    call ends when the clock, as the call measures it, is not set back
    before the first test and advances by at least [d > 0] milliseconds a
    turn: at the test after the [j]-th sleep the float
    [(time.time() - start_time) * 1000] is at least [j * d]. The number [n]
    of fetches it makes satisfies [(n - 1) * d < timeout]. *)
Theorem call_ends_within_bounded_fetches
    (self : IntegrationUtils.t) (clock : Clock) (loop : EventLoop)
    (workspace_id integration_id : Z) (repository_name : string)
    (timeout_ms interval_ms d : Z) (w : World) :
  0 < d ->
  at_least_per_turn clock workspace_id integration_id timeout_ms interval_ms d w ->
  exists (n : nat) (r : result pyval) (w' : World),
    (forall fuel, (n < fuel)%nat ->
       wait_for_repo_status_paused fuel self clock loop workspace_id integration_id
         repository_name timeout_ms interval_ms w = Some (r, w'))
    /\ fetches w' = (fetches w + n)%nat
    /\ ((1 <= n)%nat -> (Z.of_nat n - 1) * d < timeout_ms).
Proof.
  intros Hd Hpace. unfold wait_for_repo_status_paused, time_time.
  destruct (truediv timeout_ms 1000) as [secs|e].
  2:{ exists 0%nat, (Err e), (read w). split; [reflexivity|].
      split; [unfold fetches; cbn; lia|lia]. }
  destruct (wait_loop_ends self clock loop workspace_id integration_id repository_name
              timeout_ms interval_ms d w Hd Hpace (Z.to_nat timeout_ms) 0%nat)
    as (n & r & w' & _ & Hrun & Hf & Hup).
  { lia. }
  { lia. }
  exists n, r, w'. split; [|split; assumption].
  intros fuel Hfuel. apply Hrun. lia.
Qed.

Lemma call_ends_within_bounded_fetches_witness :
  let clock := Scenario.regular 1700000000000 200 0 in
  exists (n : nat) (r : result pyval) (w' : World),
    (forall fuel, (n < fuel)%nat ->
       wait_for_repo_status_paused fuel (Scenario.steady (Ok Scenario.discovered))
         clock Scenario.punctual 123 456 "org/repo" 1000 0 Scenario.dawn
       = Some (r, w'))
    /\ fetches w' = (fetches Scenario.dawn + n)%nat
    /\ ((1 <= n)%nat -> (Z.of_nat n - 1) * 199 < 1000).
Proof.
  apply (call_ends_within_bounded_fetches
           (Scenario.steady (Ok Scenario.discovered))
           (Scenario.regular 1700000000000 200 0) Scenario.punctual
           123 456 "org/repo" 1000 0 199 Scenario.dawn).
  - lia.
  - intros j Hb.
    do 7 (destruct j as [|j]; [vm_compute; reflexivity|]).
    specialize (Hb ltac:(lia)). lia.
Defined.

(** How a loop begun at the test after [j] turns of a call can end: at a
    later test, in a cancelled sleep, or right after a fetch. *)
Lemma wait_loop_trace
    (self : IntegrationUtils.t) (clock : Clock) (loop : EventLoop)
    (workspace_id integration_id : Z) (repository_name : string)
    (timeout_ms interval_ms : Z) (start_time : spec_float) (w : World) (fuel : nat) :
  forall (j : nat) (w' : World) (r : result pyval),
  wait_loop fuel self clock loop workspace_id integration_id repository_name
    timeout_ms interval_ms start_time
    (at_test j workspace_id integration_id interval_ms w) = Some (r, w') ->
  exists k : nat,
    (j <= k)%nat
    /\ ((w' = read (at_test k workspace_id integration_id interval_ms w)
         /\ r = Err (TimeoutError (timeout_message repository_name timeout_ms))
         /\ before_deadline start_time
              (time clock (at_test k workspace_id integration_id interval_ms w))
              timeout_ms = false)
        \/ (w' = at_test (S k) workspace_id integration_id interval_ms w
            /\ r = Err CancelledError)
        \/ (w' = fetched (read (at_test k workspace_id integration_id interval_ms w))
                   workspace_id integration_id
            /\ (in_float_range interval_ms = false -> k = j))).
Proof.
  induction fuel as [|fuel IH]; intros j w' r; [discriminate|].
  cbn [wait_loop time_time await_get_all_agent_configuration].
  destruct (before_deadline start_time
              (time clock (at_test j workspace_id integration_id interval_ms w))
              timeout_ms) eqn:Hlive.
  - destruct (get_all_agent_configuration (bito_api self) workspace_id integration_id
                (read (at_test j workspace_id integration_id interval_ms w)))
      as [response|e].
    + destruct (inspect_response integration_id repository_name response)
        as [[found|]|e].
      * intros [= <- <-]. exists j. split; [lia|]. right. right. now split.
      * rewrite sleep_then_unfold.
        destruct (in_float_range interval_ms) eqn:Hrange.
        2:{ intros [= <- <-]. exists j. split; [lia|]. right. right. now split. }
        destruct (cancels loop _ _).
        -- intros [= <- <-]. exists j. split; [lia|]. right. left. now split.
        -- intros H. apply (IH (S j)) in H as (k & Hk & H). exists k. split; [lia|].
           destruct H as [H|[H|[H Hno]]]; [now left|right; now left|].
           right. right. split; [exact H|]. intros Hno'. congruence.
      * intros [= <- <-]. exists j. split; [lia|]. right. right. now split.
    + intros [= <- <-]. exists j. split; [lia|]. right. right. now split.
  - intros [= <- <-]. exists j. split; [lia|]. left. now repeat split.
Qed.

(** X6. The only things a call does to the outside are readings of the
    clock, fetches with the workspace and integration ids it was given and
    sleeps of [interval_ms / 1000] seconds: one reading at line 97, then
    turns of a reading, a fetch and a sleep. A call ends in one of four
    ways: before its first test, with the [OverflowError] of line 98; at a
    test of the deadline that fails, with the method's [TimeoutError],
    having made as many sleeps as fetches; in a cancelled sleep, with
    [CancelledError]; or right after a fetch, with one sleep less than
    fetches, and when the interval is too large for a float that fetch is
    the first. *)
Theorem call_alternates_fetch_and_sleep
    (self : IntegrationUtils.t) (clock : Clock) (loop : EventLoop)
    (workspace_id integration_id : Z) (repository_name : string)
    (timeout_ms interval_ms : Z) (fuel : nat) (w w' : World) (r : result pyval) :
  wait_for_repo_status_paused fuel self clock loop workspace_id integration_id
    repository_name timeout_ms interval_ms w = Some (r, w') ->
  (w' = read w /\ r = Err (OverflowError overflow_message)
   /\ in_float_range timeout_ms = false)
  \/ exists k : nat,
       (w' = read (at_test k workspace_id integration_id interval_ms w)
        /\ r = Err (TimeoutError (timeout_message repository_name timeout_ms))
        /\ float_lt_int (measured clock k workspace_id integration_id interval_ms w)
             timeout_ms = false
        /\ fetches w' = (fetches w + k)%nat /\ sleeps w' = (sleeps w + k)%nat)
       \/ (w' = at_test (S k) workspace_id integration_id interval_ms w
           /\ r = Err CancelledError
           /\ fetches w' = (fetches w + S k)%nat /\ sleeps w' = (sleeps w + S k)%nat)
       \/ (w' = fetched (read (at_test k workspace_id integration_id interval_ms w))
                  workspace_id integration_id
           /\ (in_float_range interval_ms = false -> k = 0%nat)
           /\ fetches w' = (fetches w + S k)%nat /\ sleeps w' = (sleeps w + k)%nat).
Proof.
  unfold wait_for_repo_status_paused, time_time. rewrite truediv_1000.
  destruct (in_float_range timeout_ms) eqn:Hrange.
  2:{ intros [= <- <-]. left. now repeat split. }
  intros H. right.
  apply (wait_loop_trace self clock loop workspace_id integration_id repository_name
           timeout_ms interval_ms (time clock w) w fuel 0%nat) in H as (k & _ & H).
  exists k.
  destruct (at_test_counts workspace_id integration_id interval_ms k w) as (Hf & Hs & _).
  destruct (at_test_counts workspace_id integration_id interval_ms (S k) w)
    as (Hf' & Hs' & _).
  destruct H as [(-> & -> & Hend)|[(-> & ->)|(-> & Hno)]].
  - left. repeat split; [exact Hend|exact Hf|exact Hs].
  - right. left. repeat split; [exact Hf'|exact Hs'].
  - right. right. repeat split; [exact Hno| |exact Hs].
    change (fetches (fetched (read (at_test k workspace_id integration_id interval_ms w))
                       workspace_id integration_id))
      with (S (fetches (at_test k workspace_id integration_id interval_ms w))).
    rewrite Hf. lia.
Qed.

Lemma call_alternates_fetch_and_sleep_witness :
  let self := Scenario.steady (Ok Scenario.discovered) in
  let clock := Scenario.weekday in
  let w := Scenario.dawn in
  let r : result pyval := Err CancelledError in
  let w' := at_test 2 123 456 1000 w in
  (w' = read w /\ r = Err (OverflowError overflow_message)
   /\ in_float_range 15000 = false)
  \/ exists k : nat,
       (w' = read (at_test k 123 456 1000 w)
        /\ r = Err (TimeoutError (timeout_message "org/repo" 15000))
        /\ float_lt_int (measured clock k 123 456 1000 w) 15000 = false
        /\ fetches w' = (fetches w + k)%nat /\ sleeps w' = (sleeps w + k)%nat)
       \/ (w' = at_test (S k) 123 456 1000 w
           /\ r = Err CancelledError
           /\ fetches w' = (fetches w + S k)%nat /\ sleeps w' = (sleeps w + S k)%nat)
       \/ (w' = fetched (read (at_test k 123 456 1000 w)) 123 456
           /\ (in_float_range 1000 = false -> k = 0%nat)
           /\ fetches w' = (fetches w + S k)%nat /\ sleeps w' = (sleeps w + k)%nat).
Proof.
  apply (call_alternates_fetch_and_sleep
           (Scenario.steady (Ok Scenario.discovered)) Scenario.weekday
           (Scenario.interrupting 2) 123 456 "org/repo" 15000 1000 50 Scenario.dawn).
  vm_compute. reflexivity.
Defined.



(** ** The caller's wait *)

(** X8. In [test_bito_api_integration] the wait is made with the default
    timeout of 15000 ms and interval of 1000 ms, for which neither division
    overflows. When it returns an item, the subscript [repo['status']] of
    line 134 cannot fail and gives "PAUSED"; the subscript [repo["id"]] of
    line 132 is the only one that can fail, with [KeyError('id')], when the
    paused item carries no id. An exception of the wait goes through
    unchanged. *)
Theorem test_wait_status_is_paused
    (bito_api : BitoAPI) (clock : Clock) (loop : EventLoop)
    (workspace_id integration_id : Z) (repository_name : string)
    (fuel : nat) (w : World) :
  in_float_range 15000 = true /\ in_float_range 1000 = true
  /\ test_wait_for_repo fuel bito_api clock loop workspace_id integration_id
       repository_name w
     = match wait_for_repo_status_paused fuel (IntegrationUtils.mk bito_api) clock loop
               workspace_id integration_id repository_name 15000 1000 w with
       | None => None
       | Some (Err e, w') => Some (Err e, w')
       | Some (Ok repo, w') =>
           Some (repo_id ← getitem repo "id"; Ok (repo_id, PStr "PAUSED"), w')
       end
  /\ (forall repo w' e,
        wait_for_repo_status_paused fuel (IntegrationUtils.mk bito_api) clock loop
          workspace_id integration_id repository_name 15000 1000 w = Some (Ok repo, w') ->
        getitem repo "id" = Err e -> e = KeyError "id").
Proof.
  split; [reflexivity|]. split; [reflexivity|]. split.
  - unfold test_wait_for_repo.
    destruct (wait_for_repo_status_paused fuel (IntegrationUtils.mk bito_api) clock loop
                workspace_id integration_id repository_name 15000 1000 w)
      as [[[repo|e] w']|] eqn:Hrun; try reflexivity.
    unfold wait_for_repo_status_paused, time_time in Hrun.
    rewrite (truediv_in_range 15000 eq_refl) in Hrun.
    apply wait_loop_returns in Hrun
      as (u & response & item & rest & _ & _ & _ & -> & _ & Hst).
    run_bind. rewrite Hst. destruct (item !! "id"); reflexivity.
  - intros repo w' e Hrun Hid.
    unfold wait_for_repo_status_paused, time_time in Hrun.
    rewrite (truediv_in_range 15000 eq_refl) in Hrun.
    apply wait_loop_returns in Hrun
      as (u & response & item & rest & _ & _ & _ & -> & _ & _).
    simpl in Hid. destruct (item !! "id"); [discriminate|]. now injection Hid as <-.
Qed.

(** ** The HTTP client: responses *)

Lemma prefix_sound (part : string) :
  forall s : string, String.prefix part s = true -> exists after, s = part +:+ after.
Proof.
  induction part as [|ch part IH]; intros s.
  - intros _. now exists s.
  - destruct s as [|ch' s]; simpl; [discriminate|].
    destruct (Ascii.ascii_dec ch ch') as [<-|]; [|discriminate].
    intros H. destruct (IH _ H) as [after ->]. now exists after.
Qed.

(** [occursb] finds only what occurs. *)
Lemma occursb_includes (part : string) :
  forall s : string, occursb part s = true -> includes s part.
Proof.
  intros s. induction s as [|ch s IH]; rewrite occursb_unfold.
  - rewrite orb_false_r. intros H. apply prefix_sound in H as [after ->].
    now exists "", after.
  - intros [H|H]%orb_true_iff.
    + apply prefix_sound in H as [after ->]. now exists "", after.
    + destruct (IH H) as (before & after & ->). now exists (String ch before), after.
Qed.

Module ApiUtilsFacts.

Import Stdlib.Strings.Ascii.
Import ApiUtils.

(** X9. A response with an error status (400 or more) makes
    [parse_response] return [None]: the [ValueError] it raises for the
    status is caught by its own [except] clause, so the caller never sees
    the exception the docstring announces. This holds whether or not the
    response has a [text] method, unless awaiting it raises something
    other than a [ValueError] or an [AttributeError]. *)
Theorem parse_response_swallows_error_status (r : APIResponse) (code : Z) :
  status r = Some code ->
  400 <= code ->
  (forall e, text r = Some (Raise e) -> is_parse_error e = true) ->
  parse_response (Some r) = Done PNone.
Proof.
  intros Hs Hcode Htext. unfold parse_response. rewrite Hs.
  apply Z.leb_le in Hcode as ->.
  destruct (text r) as [[body|e]|]; simpl; try reflexivity.
  now rewrite (Htext e eq_refl).
Qed.

Lemma parse_response_swallows_error_status_witness :
  parse_response (Some ApiScenario.not_found_page) = Done PNone.
Proof.
  apply (parse_response_swallows_error_status ApiScenario.not_found_page 404).
  - reflexivity.
  - lia.
  - intros e H. discriminate H.
Defined.

(** X10. [parse_response] raises neither [ValueError] nor [AttributeError]
    nor [JSONDecodeError]: whatever it raises was raised by awaiting the
    [text] or the [json] method of the response, and is of another
    class. *)
Theorem parse_response_raises_only_foreign_errors
    (response : option APIResponse) (e : raised) :
  parse_response response = Raise e ->
  is_parse_error e = false
  /\ exists r, response = Some r
       /\ (text r = Some (Raise e) \/ json r = Some (Raise e)).
Proof.
  destruct response as [r|]; [|discriminate]. unfold parse_response.
  assert (Hcatch : forall tried : outcome pyval,
            match tried with
            | Raise e0 => if is_parse_error e0 then Done PNone else Raise e0
            | Done v => Done v
            end = Raise e ->
            tried = Raise e /\ is_parse_error e = false).
  { intros [v|e0]; [discriminate|].
    destruct (is_parse_error e0) eqn:E; [discriminate|]. now intros [= <-]. }
  intros H. apply Hcatch in H as [H He]. split; [exact He|].
  exists r. split; [reflexivity|].
  destruct (status r) as [code|]; [destruct (400 <=? code)|].
  - destruct (text r) as [[body|e0]|]; simpl in H.
    + injection H as <-. discriminate.
    + injection H as <-. now left.
    + injection H as <-. discriminate.
  - destruct (occursb "application/json" (content_type r)).
    + destruct (json r) as [[v|e0]|]; [discriminate| |].
      * injection H as <-. now right.
      * injection H as <-. discriminate.
    + destruct (text r) as [[body|e0]|]; [discriminate| |].
      * injection H as <-. now left.
      * injection H as <-. discriminate.
  - destruct (occursb "application/json" (content_type r)).
    + destruct (json r) as [[v|e0]|]; [discriminate| |].
      * injection H as <-. now right.
      * injection H as <-. discriminate.
    + destruct (text r) as [[body|e0]|]; [discriminate| |].
      * injection H as <-. now left.
      * injection H as <-. discriminate.
Qed.

Lemma parse_response_raises_only_foreign_errors_witness :
  let e := Raised (ExceptionT "playwright.Error") "Response has been disposed" None in
  let r := mkAPIResponse (Some 200) (Some {["content-type" := "text/plain"]})
             (Some (Raise e)) (Some (Raise e)) in
  is_parse_error e = false
  /\ exists r', Some r = Some r' /\ (text r' = Some (Raise e) \/ json r' = Some (Raise e)).
Proof.
  apply (parse_response_raises_only_foreign_errors
           (Some (mkAPIResponse (Some 200) (Some {["content-type" := "text/plain"]})
                    (Some (Raise (Raised (ExceptionT "playwright.Error")
                                    "Response has been disposed" None)))
                    (Some (Raise (Raised (ExceptionT "playwright.Error")
                                    "Response has been disposed" None)))))
           (Raised (ExceptionT "playwright.Error") "Response has been disposed" None)).
  reflexivity.
Defined.

(** X11. For a response without an error status, [parse_response] decodes
    the body as JSON exactly when "application/json" occurs somewhere in
    the content-type header, parameters such as a charset included; without
    it, or without the header, or without headers at all, it returns the
    text. *)
Theorem parse_response_chooses_by_content_type (r : APIResponse) :
  (forall code, status r = Some code -> code < 400) ->
  (includes (content_type r) "application/json" ->
   forall v, json r = Some (Done v) -> parse_response (Some r) = Done v)
  /\ (~ includes (content_type r) "application/json" ->
      forall body, text r = Some (Done body) -> parse_response (Some r) = Done (PStr body)).
Proof.
  intros Hok.
  assert (Hstatus : match status r with
                    | Some code => 400 <=? code
                    | None => false
                    end = false).
  { destruct (status r) as [code|]; [|reflexivity].
    apply Z.leb_gt. now apply Hok. }
  unfold parse_response. split.
  - intros Hin v Hv. apply includes_occursb in Hin.
    destruct (status r) as [code|]; [rewrite Hstatus|]; rewrite Hin, Hv; reflexivity.
  - intros Hout body Hbody.
    destruct (occursb "application/json" (content_type r)) eqn:E.
    { exfalso. apply Hout. now apply occursb_includes. }
    destruct (status r) as [code|]; [rewrite Hstatus|]; rewrite Hbody; reflexivity.
Qed.

Lemma parse_response_chooses_by_content_type_witness :
  (includes (content_type ApiScenario.json_page) "application/json" ->
   forall v, json ApiScenario.json_page = Some (Done v) ->
             parse_response (Some ApiScenario.json_page) = Done v)
  /\ (~ includes (content_type ApiScenario.json_page) "application/json" ->
      forall body, text ApiScenario.json_page = Some (Done body) ->
                   parse_response (Some ApiScenario.json_page) = Done (PStr body)).
Proof.
  apply (parse_response_chooses_by_content_type ApiScenario.json_page).
  intros code [= <-]. lia.
Defined.

(** ** The HTTP client: URLs *)

Lemma lstrip_slash_cons (c : Ascii.ascii) (s : string) :
  lstrip_slash (String c s)
  = if Ascii.eqb c "/"%char then lstrip_slash s else String c s.
Proof. destruct c as [[] [] [] [] [] [] [] []]; reflexivity. Qed.

Lemma lstrip_slash_decompose (s : string) :
  exists j, s = slashes j +:+ lstrip_slash s /\ no_leading_slash (lstrip_slash s).
Proof.
  induction s as [|c s (j & Hs & Hno)].
  - exists 0%nat. split; [reflexivity|]. intros s' H. discriminate H.
  - rewrite lstrip_slash_cons. destruct (Ascii.eqb c "/"%char) eqn:E.
    + apply Ascii.eqb_eq in E as ->. exists (S j). split; [|exact Hno].
      change (String "/" s = String "/" (slashes j +:+ lstrip_slash s)).
      now rewrite <- Hs.
    + exists 0%nat. split; [reflexivity|]. intros s' [= -> _].
      now rewrite Ascii.eqb_refl in E.
Qed.

Lemma rstrip_slash_decompose (s : string) :
  exists i, s = rstrip_slash s +:+ slashes i /\ no_trailing_slash (rstrip_slash s).
Proof.
  induction s as [|c s (i & Hs & Hno)].
  - exists 0%nat. split; [reflexivity|]. intros [|c s'] H; discriminate H.
  - simpl. destruct (rstrip_slash s) as [|c' r] eqn:Hr.
    + destruct (Ascii.eqb c "/"%char) eqn:E.
      * apply Ascii.eqb_eq in E as ->. exists (S i). split.
        -- change (String "/" s = String "/" (slashes i)). now rewrite Hs.
        -- intros [|c s'] H; discriminate H.
      * exists i. split.
        -- change (String c s = String c (slashes i)). now rewrite Hs.
        -- intros [|c0 s'] H.
           ++ injection H as ->. now rewrite Ascii.eqb_refl in E.
           ++ injection H as _ H. destruct s'; discriminate H.
    + exists i. split.
      * change (String c s = String c (String c' r +:+ slashes i)). now rewrite <- Hs.
      * intros [|c0 s'] H.
        -- discriminate H.
        -- injection H as _ H. now apply (Hno s').
Qed.

(** X12. [_format_url] joins the base URL and the endpoint with exactly
    one slash, whatever the number of slashes the base URL ends with and
    the endpoint begins with: the result is the base URL without its
    trailing slashes, one slash, and the endpoint without its leading
    slashes. Slashes elsewhere are kept. *)
Theorem format_url_joins_with_one_slash (self : t) (endpoint : string) :
  exists (b e : string) (i j : nat),
    base_url self = b +:+ slashes i
    /\ endpoint = slashes j +:+ e
    /\ no_trailing_slash b
    /\ no_leading_slash e
    /\ _format_url self endpoint = b +:+ "/" +:+ e.
Proof.
  destruct (rstrip_slash_decompose (base_url self)) as (i & Hb & Hnb).
  destruct (lstrip_slash_decompose endpoint) as (j & He & Hne).
  exists (rstrip_slash (base_url self)), (lstrip_slash endpoint), i, j.
  repeat split; auto.
Qed.

(** ** The HTTP client: the life cycle *)

Lemma live_playwrights_cons (c : call) (b : bool) (l : log) :
  live_playwrights ((c, b) :: l)
  = live_playwrights l
    + match c, b with
      | Start, true => 1
      | Stop _, true => -1
      | _, _ => 0
      end.
Proof. unfold live_playwrights. destruct c, b; simpl; lia. Qed.

Lemma live_contexts_cons (c : call) (b : bool) (l : log) :
  live_contexts ((c, b) :: l)
  = live_contexts l
    + match c, b with
      | NewContext _ _ _, true => 1
      | Dispose _, true => -1
      | _, _ => 0
      end.
Proof. unfold live_contexts. destruct c, b; simpl; lia. Qed.

(** With a teardown that does not fail, [cleanup_resources] returns, lets
    go of everything and makes the calls of [teardown_calls]. *)
Lemma cleanup_resources_done (d : Driver) (self : t) (l : log) :
  teardown_never_fails d ->
  cleanup_resources d self l = (Done tt, let_go self, teardown_calls self ++ l).
Proof.
  intros Hd. unfold cleanup_resources, teardown_calls, let_go, invoke.
  destruct self as [b h [p|] [c|] i]; simpl.
  - rewrite (proj1 (Hd l c)). simpl. now rewrite (proj2 (Hd _ p)).
  - now rewrite (proj2 (Hd _ p)).
  - now rewrite (proj1 (Hd l c)).
  - reflexivity.
Qed.

Lemma balanced_let_go (self : t) (l : log) :
  balanced self l -> balanced (let_go self) (teardown_calls self ++ l).
Proof.
  intros (Hp & Hc & _). unfold balanced, teardown_calls, let_go, released. simpl.
  destruct (playwright self) as [p|], (context self) as [c|]; simpl;
    rewrite ?live_playwrights_cons, ?live_contexts_cons;
    (split; [lia|split; [lia|left; auto]]).
Qed.

Lemma balanced_init (d : Driver) (self : t) (l : log) :
  teardown_never_fails d ->
  raises_only_exceptions d ->
  balanced self l ->
  balanced (snd (fst (init d self l))) (snd (init d self l))
  /\ base_url (snd (fst (init d self l))) = base_url self
  /\ headers (snd (fst (init d self l))) = headers self.
Proof.
  intros Hd He Hbal. unfold init.
  destruct (_initialized self) eqn:Hi; [simpl; split; [exact Hbal|now split]|].
  destruct Hbal as (Hp & Hc & [(Hpn & Hcn & _)|(_ & _ & Hu)]); [|congruence].
  rewrite Hpn in Hp. rewrite Hcn in Hc.
  unfold invoke. destruct (fails d l Start) as [e|] eqn:Hs.
  - rewrite (He _ _ _ Hs), (cleanup_resources_done _ _ _ Hd).
    unfold teardown_calls. rewrite Hpn, Hcn. simpl.
    repeat split; auto; unfold balanced, released; simpl;
      rewrite ?live_playwrights_cons, ?live_contexts_cons; repeat split; auto; lia.
  - cbn zeta.
    destruct (fails d ((Start, true) :: l) _) as [e|] eqn:Hn.
    + rewrite (He _ _ _ Hn), (cleanup_resources_done _ _ _ Hd).
      unfold teardown_calls. simpl. rewrite Hcn. simpl.
      repeat split; auto; unfold balanced, released; simpl;
        rewrite ?live_playwrights_cons, ?live_contexts_cons; repeat split; auto; lia.
    + simpl. repeat split; auto; unfold balanced, in_use; simpl;
        rewrite ?live_playwrights_cons, ?live_contexts_cons; try lia.
      right. repeat split; eauto.
Qed.

Lemma request_keeps (d : Driver) (self : t) (v : verb) (endpoint : string)
    (headers' : option (gmap string string)) (body : payload) (l : log) :
  snd (fst (request d self v endpoint headers' body l)) = self
  /\ (snd (request d self v endpoint headers' body l) = l
      \/ exists c b, context self = Some c
           /\ snd (request d self v endpoint headers' body l)
              = (Send c v endpoint (default ∅ headers' ∪ headers self) body, b) :: l).
Proof.
  unfold request. destruct (_ensure_initialized self); [|now split; [|left]].
  destruct (context self) as [c|]; [|now split; [|left]].
  unfold invoke. destruct (fails d l _); simpl; (split; [reflexivity|right; eauto]).
Qed.

Lemma balanced_step (d : Driver) (o : op) (self : t) (l : log) :
  teardown_never_fails d ->
  raises_only_exceptions d ->
  balanced self l ->
  balanced (fst (step d o (self, l))) (snd (step d o (self, l)))
  /\ base_url (fst (step d o (self, l))) = base_url self
  /\ headers (fst (step d o (self, l))) = headers self.
Proof.
  intros Hd He Hbal.
  pose proof (balanced_init d self l Hd He Hbal) as Hinit.
  pose proof (balanced_let_go self l Hbal) as Hgo.
  destruct o as [| | | |v endpoint headers' body]; simpl.
  - destruct (init d self l) as [[r self'] l']. exact Hinit.
  - rewrite (cleanup_resources_done _ _ _ Hd). simpl. split; [exact Hgo|now split].
  - unfold start_session. destruct (init d self l) as [[[|] self'] l']; exact Hinit.
  - unfold end_session. rewrite (cleanup_resources_done _ _ _ Hd).
    simpl. split; [exact Hgo|now split].
  - destruct (request_keeps d self v endpoint headers' body l) as [Hself Hlog].
    destruct (request d self v endpoint headers' body l) as [[r self'] l'].
    simpl in *. subst self'. split; [|now split].
    destruct Hlog as [->|(c & b & _ & ->)]; [exact Hbal|].
    destruct Hbal as (Hp & Hc & Hst). unfold balanced.
    rewrite live_playwrights_cons, live_contexts_cons. simpl.
    repeat split; auto; lia.
Qed.

Lemma balanced_steps (d : Driver) (ops : list op) :
  teardown_never_fails d ->
  raises_only_exceptions d ->
  forall (self : t) (l : log),
  balanced self l ->
  balanced (fst (steps d ops (self, l))) (snd (steps d ops (self, l)))
  /\ base_url (fst (steps d ops (self, l))) = base_url self
  /\ headers (fst (steps d ops (self, l))) = headers self.
Proof.
  intros Hd He. induction ops as [|o ops IH]; intros self l Hbal.
  - simpl. split; [exact Hbal|now split].
  - change (steps d (o :: ops) (self, l)) with (steps d ops (step d o (self, l))).
    destruct (balanced_step d o self l Hd He Hbal) as (Hb & Hu & Hh).
    destruct (step d o (self, l)) as [self1 l1]. simpl in Hb, Hu, Hh.
    destruct (IH self1 l1 Hb) as (Hb' & Hu' & Hh').
    split; [exact Hb'|]. split; congruence.
Qed.

Lemma balanced_fresh (base : string) (hdrs : option (gmap string string)) :
  balanced (__init__ base hdrs) [].
Proof. unfold balanced, released. simpl. repeat split; auto. Qed.

Lemma steps_snoc (d : Driver) (ops : list op) (o : op) (sl : t * log) :
  steps d (ops ++ [o]) sl = step d o (steps d ops sl).
Proof. unfold steps. now rewrite fold_left_app. Qed.

(** X13. Against a Playwright whose teardown does not fail and which raises
    only [Exception]s, no sequence of [init], [cleanup_resources],
    [start_session], [end_session] and requests on a new instance leaks
    anything: the drivers started and not stopped are exactly the one the
    instance holds (none, or one), likewise the contexts, the instance is
    either wholly up or wholly down, and its base URL and headers never
    change. After a final [end_session] nothing is left running. *)
Theorem life_cycle_never_leaks
    (d : Driver) (base : string) (hdrs : option (gmap string string)) (ops : list op) :
  teardown_never_fails d ->
  raises_only_exceptions d ->
  let after := steps d ops (__init__ base hdrs, []) in
  let closed := steps d (ops ++ [OpEndSession]) (__init__ base hdrs, []) in
  balanced (fst after) (snd after)
  /\ base_url (fst after) = base
  /\ headers (fst after) = default ∅ hdrs
  /\ released (fst closed)
  /\ live_playwrights (snd closed) = 0
  /\ live_contexts (snd closed) = 0.
Proof.
  intros Hd He. cbv zeta. rewrite steps_snoc.
  destruct (balanced_steps d ops Hd He _ _ (balanced_fresh base hdrs)) as (Hb & Hu & Hh).
  match goal with |- context [step d OpEndSession ?x] => set (sl := x) end.
  change (balanced (fst sl) (snd sl)) in Hb.
  change (base_url (fst sl) = base) in Hu.
  change (headers (fst sl) = default ∅ hdrs) in Hh.
  clearbody sl. destruct sl as [self l].
  cbn [fst snd] in Hb, Hu, Hh |- *.
  split; [exact Hb|]. split; [exact Hu|]. split; [exact Hh|].
  cbn [step]. unfold end_session. rewrite (cleanup_resources_done _ _ _ Hd).
  destruct (balanced_let_go self l Hb) as (Hp & Hc & _).
  cbn [fst snd let_go playwright context] in Hp, Hc |- *.
  split; [|split; assumption]. unfold released. now repeat split.
Qed.

Lemma life_cycle_never_leaks_witness :
  let ops := [OpInit; OpStartSession; OpRequest GET "/v1/x" None (Params ∅); OpInit] in
  let after := steps ApiScenario.flaky ops (__init__ "https://api.bito.ai" None, []) in
  let closed :=
    steps ApiScenario.flaky (ops ++ [OpEndSession]) (__init__ "https://api.bito.ai" None, []) in
  balanced (fst after) (snd after)
  /\ base_url (fst after) = "https://api.bito.ai"
  /\ headers (fst after) = default ∅ None
  /\ released (fst closed)
  /\ live_playwrights (snd closed) = 0
  /\ live_contexts (snd closed) = 0.
Proof.
  apply (life_cycle_never_leaks ApiScenario.flaky "https://api.bito.ai" None
           [OpInit; OpStartSession; OpRequest GET "/v1/x" None (Params ∅); OpInit]).
  - intros l h. split; reflexivity.
  - intros l c e H. destruct c; simpl in H; try discriminate H.
    destruct (length l <? 2)%nat; [|discriminate H]. injection H as <-. reflexivity.
Defined.

(** X14. When the driver starts but the context cannot be created, [init]
    on an instance that holds no context stops the driver it has just
    started, leaves the instance holding nothing, and raises a
    [RuntimeError] whose message is "Failed to initialize API context: "
    followed by the text of the original exception, which it keeps as
    cause. *)
Theorem failed_init_stops_the_driver_and_wraps
    (d : Driver) (self : t) (l : log) (e : raised) :
  _initialized self = false ->
  context self = None ->
  fails d l Start = None ->
  fails d ((Start, true) :: l)
    (NewContext (length l) (base_url self) (extra_http_headers self)) = Some e ->
  is_Exception e = true ->
  fails d ((NewContext (length l) (base_url self) (extra_http_headers self), false)
             :: (Start, true) :: l) (Stop (length l)) = None ->
  init d self l
  = (Raise (Raised RuntimeErrorT ("Failed to initialize API context: " +:+ str e) (Some e)),
     let_go self,
     (Stop (length l), true)
       :: (NewContext (length l) (base_url self) (extra_http_headers self), false)
       :: (Start, true) :: l).
Proof.
  destruct self as [b h p c i]. unfold extra_http_headers, let_go.
  cbn [_initialized context base_url headers]. intros -> -> Hs Hn He Hstop.
  unfold init, invoke, extra_http_headers.
  cbn [_initialized context base_url headers playwright]. rewrite Hs. cbn zeta.
  cbn [_initialized context base_url headers playwright]. rewrite Hn, He.
  unfold cleanup_resources, invoke.
  cbn [_initialized context base_url headers playwright]. rewrite Hstop.
  reflexivity.
Qed.

Lemma failed_init_stops_the_driver_and_wraps_witness :
  let self := __init__ "https://api.bito.ai" None in
  let e := Raised (ExceptionT "playwright.Error") "connection refused" None in
  init ApiScenario.flaky self []
  = (Raise (Raised RuntimeErrorT ("Failed to initialize API context: " +:+ str e) (Some e)),
     let_go self,
     [(Stop 0, true);
      (NewContext 0 (base_url self) (extra_http_headers self), false);
      (Start, true)]).
Proof.
  apply (failed_init_stops_the_driver_and_wraps ApiScenario.flaky
           (__init__ "https://api.bito.ai" None) []
           (Raised (ExceptionT "playwright.Error") "connection refused" None));
    reflexivity.
Defined.

(** X15. When the creation of the context is interrupted by an exception
    that is no [Exception] (a cancellation), [init] lets it through
    unwrapped and without cleaning up: the instance keeps the driver it has
    started and stays uninitialised. If [init] is then called again, it
    starts another driver and forgets the first one, which the instance no
    longer holds and which no call stops. *)
Theorem cancelled_init_forgets_the_driver
    (d : Driver) (self : t) (l : log) (e : raised) :
  _initialized self = false ->
  context self = None ->
  fails d l Start = None ->
  fails d ((Start, true) :: l)
    (NewContext (length l) (base_url self) (extra_http_headers self)) = Some e ->
  is_Exception e = false ->
  let held :=
    {| base_url := base_url self; headers := headers self;
       playwright := Some (length l); context := None; _initialized := false |} in
  let l1 :=
    (NewContext (length l) (base_url self) (extra_http_headers self), false)
      :: (Start, true) :: l in
  init d self l = (Raise e, held, l1)
  /\ (fails d l1 Start = None ->
      playwright (snd (fst (init d held l1))) <> Some (length l)
      /\ exists new, snd (init d held l1) = new ++ l1
           /\ forall h b, In (Stop h, b) new -> h <> length l).
Proof.
  destruct self as [b h p c i]. unfold extra_http_headers.
  cbn [_initialized context base_url headers]. intros -> -> Hs Hn He. cbv zeta. split.
  - unfold init, invoke, extra_http_headers.
    cbn [_initialized context base_url headers playwright]. rewrite Hs. cbn zeta.
    cbn [_initialized context base_url headers playwright]. now rewrite Hn, He.
  - intros Hs'. unfold init, invoke, extra_http_headers.
    cbn [_initialized context base_url headers playwright]. rewrite Hs'. cbn zeta.
    cbn [_initialized context base_url headers playwright length].
    match goal with |- context [fails d ?l' (NewContext ?q ?u ?x)] =>
      destruct (fails d l' (NewContext q u x)) as [e'|] end.
    + destruct (is_Exception e').
      * unfold cleanup_resources, invoke.
        cbn [_initialized context base_url headers playwright].
        match goal with |- context [fails d ?l' (Stop ?q)] =>
          destruct (fails d l' (Stop q)) end; cbn [fst snd playwright].
        -- split; [intros [= H]; lia|]. eexists [_; _; _]. split; [reflexivity|].
           intros h0 b0 [[= <- _]|[[=]|[[=]|[]]]]. lia.
        -- split; [discriminate|]. eexists [_; _; _]. split; [reflexivity|].
           intros h0 b0 [[= <- _]|[[=]|[[=]|[]]]]. lia.
      * cbn [fst snd playwright]. split; [intros [= H]; lia|].
        eexists [_; _]. split; [reflexivity|]. intros h0 b0 [[=]|[[=]|[]]].
    + cbn [fst snd playwright]. split; [intros [= H]; lia|].
      eexists [_; _]. split; [reflexivity|]. intros h0 b0 [[=]|[[=]|[]]].
Qed.

Lemma cancelled_init_forgets_the_driver_witness :
  let self := __init__ "https://api.bito.ai" None in
  let e := Raised (BaseExceptionT "asyncio.CancelledError") "" None in
  let held :=
    {| base_url := base_url self; headers := headers self;
       playwright := Some 0%nat; context := None; _initialized := false |} in
  let l1 := [(NewContext 0 (base_url self) (extra_http_headers self), false);
             (Start, true)] in
  init ApiScenario.cancelling self [] = (Raise e, held, l1)
  /\ (fails ApiScenario.cancelling l1 Start = None ->
      playwright (snd (fst (init ApiScenario.cancelling held l1))) <> Some 0%nat
      /\ exists new, snd (init ApiScenario.cancelling held l1) = new ++ l1
           /\ forall h b, In (Stop h, b) new -> h <> 0%nat).
Proof.
  apply (cancelled_init_forgets_the_driver ApiScenario.cancelling
           (__init__ "https://api.bito.ai" None) []
           (Raised (BaseExceptionT "asyncio.CancelledError") "" None));
    reflexivity.
Defined.

Lemma request_not_initialised (d : Driver) (self : t) (v : verb) (endpoint : string)
    (headers' : option (gmap string string)) (body : payload) (l : log) :
  _initialized self = false ->
  request d self v endpoint headers' body l
  = (Raise (Raised RuntimeErrorT not_initialized_message None), self, l).
Proof. intros H. unfold request, _ensure_initialized. now rewrite H. Qed.

(** X16. Once [end_session] (or [cleanup_resources]) has run, with a
    teardown that does not fail, each of [get], [post], [put] and [delete]
    raises the [RuntimeError] "API context not initialized..." and reaches
    Playwright with no call at all; the same holds on an instance that was
    never initialised. *)
Theorem requests_need_a_live_session
    (d : Driver) (self : t) (l : log) (endpoint : string)
    (headers' : option (gmap string string))
    (params : option (gmap string pyval)) (data : option pyval) :
  teardown_never_fails d ->
  let refused := Raise (Raised RuntimeErrorT not_initialized_message None) in
  let closed := snd (fst (end_session d self l)) in
  let l' := snd (end_session d self l) in
  fst (fst (end_session d self l)) = Done tt
  /\ get d closed endpoint headers' params l' = (refused, closed, l')
  /\ post d closed endpoint data headers' l' = (refused, closed, l')
  /\ put d closed endpoint data headers' l' = (refused, closed, l')
  /\ delete d closed endpoint headers' params l' = (refused, closed, l')
  /\ (forall base hdrs,
        get d (__init__ base hdrs) endpoint headers' params l
        = (refused, __init__ base hdrs, l)).
Proof.
  intros Hd. cbv zeta. unfold end_session.
  rewrite (cleanup_resources_done _ _ _ Hd). cbn [fst snd].
  unfold get, post, put, delete.
  repeat split; try (now apply request_not_initialised).
Qed.

Lemma requests_need_a_live_session_witness :
  let d := ApiScenario.reliable in
  let self :=
    {| base_url := "https://api.bito.ai"; headers := ∅;
       playwright := Some 0%nat; context := Some 1%nat; _initialized := true |} in
  let l : log := [(NewContext 0 "https://api.bito.ai" (extra_http_headers self), true);
                  (Start, true)] in
  let refused := Raise (Raised RuntimeErrorT not_initialized_message None) in
  let closed := snd (fst (end_session d self l)) in
  let l' := snd (end_session d self l) in
  fst (fst (end_session d self l)) = Done tt
  /\ get d closed "/v1/x" None None l' = (refused, closed, l')
  /\ post d closed "/v1/x" None None l' = (refused, closed, l')
  /\ put d closed "/v1/x" None None l' = (refused, closed, l')
  /\ delete d closed "/v1/x" None None l' = (refused, closed, l')
  /\ (forall base hdrs,
        get d (__init__ base hdrs) "/v1/x" None None l
        = (refused, __init__ base hdrs, l)).
Proof.
  apply (requests_need_a_live_session ApiScenario.reliable
           {| base_url := "https://api.bito.ai"; headers := ∅;
              playwright := Some 0%nat; context := Some 1%nat; _initialized := true |}
           [(NewContext 0 "https://api.bito.ai"
               (extra_http_headers
                  {| base_url := "https://api.bito.ai"; headers := ∅;
                     playwright := Some 0%nat; context := Some 1%nat;
                     _initialized := true |}), true);
            (Start, true)]
           "/v1/x" None None None).
  intros l h. split; reflexivity.
Defined.



(** X18. Against a Playwright whose teardown does not fail and which raises
    only [Exception]s, [initialize_new_instance] is all or nothing: it
    returns an instance that is wholly up, with the base URL and headers
    asked for and one more driver and one more context running, or it raises
    the [RuntimeError] "Failed to initialize API context: ..." built from
    the original exception, and then nothing more is running than
    before. *)
Theorem initialize_new_instance_is_all_or_nothing
    (d : Driver) (base : string) (hdrs : option (gmap string string)) (l : log) :
  teardown_never_fails d ->
  raises_only_exceptions d ->
  match initialize_new_instance d base hdrs l with
  | (Done api, _, l') =>
      in_use api /\ base_url api = base /\ headers api = default ∅ hdrs
      /\ live_playwrights l' = live_playwrights l + 1
      /\ live_contexts l' = live_contexts l + 1
  | (Raise e, api, l') =>
      (exists cause,
         e = Raised RuntimeErrorT ("Failed to initialize API context: " +:+ str cause)
               (Some cause))
      /\ released api
      /\ live_playwrights l' = live_playwrights l
      /\ live_contexts l' = live_contexts l
  end.
Proof.
  intros Hd He. unfold initialize_new_instance, init, invoke, __init__.
  cbn [_initialized context base_url headers playwright].
  destruct (fails d l Start) as [e|] eqn:Hs.
  - rewrite (He _ _ _ Hs), (cleanup_resources_done _ _ _ Hd).
    unfold teardown_calls, let_go, released. simpl.
    rewrite live_playwrights_cons, live_contexts_cons.
    repeat split; eauto; lia.
  - cbn zeta. cbn [_initialized context base_url headers playwright].
    match goal with |- context [fails d ?l' (NewContext ?q ?u ?x)] =>
      destruct (fails d l' (NewContext q u x)) as [e|] eqn:Hn end.
    + rewrite (He _ _ _ Hn), (cleanup_resources_done _ _ _ Hd).
      unfold teardown_calls, let_go, released. simpl.
      rewrite !live_playwrights_cons, !live_contexts_cons.
      repeat split; eauto; lia.
    + unfold in_use. simpl. rewrite !live_playwrights_cons, !live_contexts_cons.
      repeat split; eauto; lia.
Qed.

Lemma initialize_new_instance_is_all_or_nothing_witness :
  match initialize_new_instance ApiScenario.flaky "https://api.bito.ai" None [] with
  | (Done api, _, l') =>
      in_use api /\ base_url api = "https://api.bito.ai" /\ headers api = default ∅ None
      /\ live_playwrights l' = live_playwrights [] + 1
      /\ live_contexts l' = live_contexts [] + 1
  | (Raise e, api, l') =>
      (exists cause,
         e = Raised RuntimeErrorT ("Failed to initialize API context: " +:+ str cause)
               (Some cause))
      /\ released api
      /\ live_playwrights l' = live_playwrights []
      /\ live_contexts l' = live_contexts []
  end.
Proof.
  apply (initialize_new_instance_is_all_or_nothing ApiScenario.flaky
           "https://api.bito.ai" None []).
  - intros l h. split; reflexivity.
  - intros l c e H. destruct c; simpl in H; try discriminate H.
    destruct (length l <? 2)%nat; [|discriminate H]. injection H as <-. reflexivity.
Defined.

End ApiUtilsFacts.
